(** * Ghost server bootstrap ([core/server/index.js])

    A shallow embedding of the start-up sequence of the Ghost blogging
    platform: the first-run resolver ([doFirstRun], [initDbHashAndFirstRun]),
    the promise chain of [setup], the listening-target decision [getSocket]
    and the listen callback [startGhost] with its interrupt listeners.

    The file is organised as follows:
    - JavaScript data used by the module (values, configuration, records);
    - the collaborators of the module (model layer, api, fs, process, ...)
      as requests and synchronous calls;
    - promises as resumptions ([proc]) with the combinators of when.js that
      the module uses ([then_], [otherwise], [then2], [join]);
    - the [World] that answers the collaborators, the [State] of the process
      and the interpreter [run], which yields the trace of a run;
    - the functions of [index.js];
    - the vocabulary of traces and some example installations;
    - the properties: the first-run notification, the listening target, the
      installation hash, the order of the start-up, rejections, the socket,
      interrupts and the version guard. *)

From Stdlib Require Import List String Ascii ZArith QArith Qround Lia.
From stdpp Require Import gmap strings.

Import ListNotations.
Local Open Scope string_scope.
Local Open Scope list_scope.

(** ** JavaScript data *)

(** The values a configuration key can hold. *)
Inductive JsValue :=
| JUndefined
| JNull
| JBool (b : bool)
| JNumber (n : Z)
| JString (s : string)
| JObject.

(** [_.isString] *)
Definition isString (v : JsValue) : bool :=
  match v with JString _ => true | _ => false end.

(** ToBoolean, as used by [if (...)] and [||]. *)
Definition truthy (v : JsValue) : bool :=
  match v with
  | JUndefined | JNull => false
  | JBool b => b
  | JNumber n => negb (n =? 0)%Z
  | JString s => negb (String.eqb s "")
  | JObject => true
  end.

(** [a || b] *)
Definition jsOr (a b : JsValue) : JsValue := if truthy a then a else b.

(** An environment variable is a string or [undefined]; [+] turns
    [undefined] into the text "undefined", [Array.prototype.join] into the
    empty text. *)
Definition plusString (v : option string) : string :=
  match v with Some s => s | None => "undefined" end.

Definition joinElement (v : option string) : string :=
  match v with Some s => s | None => "" end.

(** [Array.prototype.join(sep)] *)
Fixpoint arrayJoin (sep : string) (xs : list (option string)) : string :=
  match xs with
  | [] => ""
  | [x] => joinElement x
  | x :: rest => joinElement x ++ sep ++ arrayJoin sep rest
  end.

(** [Math.round]: the nearest integer, ties towards +infinity. *)
Definition Math_round (x : Q) : Z := Qfloor (x + (1 # 2))%Q.

(** [config()] *)
Record ServerConfig := {
  host : string;
  port : string;
  (* [None]: the key is absent, [hasOwnProperty('socket')] is false *)
  socket : option JsValue
}.

Record Config := {
  url : string;
  server : ServerConfig
}.

Module Setting.
Record t := { key : string; value : string; type : string }.
End Setting.

(** What [models.Settings.read] resolves with: [hash.attributes.value]. *)
Record SettingModel := { attributes : Setting.t }.

Module Notification.
Record t := { type : string; message : string; status : string; id : string }.
End Notification.

(** Rejection reasons. *)
Inductive Error :=
| NotFound
| Failure (msg : string).

Inductive outcome (A : Type) :=
| Fulfilled (a : A)
| Rejected (e : Error).
Arguments Fulfilled {A} a.
Arguments Rejected {A} e.

Definition rejection {A} (o : outcome A) : option Error :=
  match o with Fulfilled _ => None | Rejected e => Some e end.

(** Console output: plain text, text decorated by the [colors] module, or a
    number. *)
Inductive Colour := red | green | yellow | grey.

Inductive LogArg :=
| Plain (s : string)
| Coloured (c : Colour) (s : string)
| Value (v : JsValue).

(** The two [SIGINT] listeners that [startGhost] can register. *)
Inductive Listener :=
| ShutdownProduction
| ShutdownOther.

(** ** Collaborators *)

(** Asynchronous calls: each returns a promise (or, for [fs.unlink] and
    [server.listen], takes a callback) that settles later. *)
Inductive request :=
| ModelsInit
| UpdatePaths (url : string)
| PopulateDefaults
| ApiInit
| ThemeUpdate
| SettingsRead (key : string)
| SettingsAdd (s : Setting.t)
| NotificationsAdd (n : Notification.t)
| PermissionsInit
| MailerInit
| PluginsInit
| FsUnlink (path : JsValue)
| ServerListen (args : list JsValue).

Definition reply (c : request) : Type :=
  match c with
  | SettingsRead _ => SettingModel
  | _ => unit
  end.

(** Synchronous calls and accesses to the module variable [dbHash].
    [UncaughtError err] is Node ending the process on an 'error' event
    that has no listener; [Race l r] asks which of two pending requests
    settles first. *)
Inductive action :=
| RequireMonitor
| PolyglotInstance
| AssignDbHash (v : string)
| ReadDbHash
| UuidV4
| MimeDefine
| Express
| ServerSet (name : string) (v : JsValue)
| HbsCreate
| Express3
| LoadCoreHelpers
| Middleware (secret : option string)
| RoutesApi
| RoutesAdmin
| RoutesFrontend
| ConsoleLog (args : list LogArg)
| ProcessExit (code : Z)
| LogErrorAndExit (err : Error)
| ProcessOn (signal : string) (h : Listener)
| FsChmod (path : JsValue) (mode : string)
| ProcessUptime
| UncaughtError (err : Error)
| Race (l r : request).

(** [process.exit] and [errors.logErrorAndExit] do not return, and
    nothing runs after an uncaught error. *)
Definition result (a : action) : Type :=
  match a with
  | ReadDbHash => option string
  | UuidV4 => string
  | ProcessExit _ | LogErrorAndExit _ | UncaughtError _ => Empty_set
  | ProcessUptime => Q
  | Race _ _ => bool
  | _ => unit
  end.

(** ** Promises as resumptions *)

(** A computation of the event loop: it has settled ([Ret]), performs a
    synchronous call ([Do]), issues an asynchronous call ([Call]) or is
    suspended until an issued call settles ([Wait]). *)
Inductive proc (R : Type) : Type :=
| Ret (o : outcome R)
| Do (a : action) (k : result a -> proc R)
| Call (c : request) (k : proc R)
| Wait (c : request) (k : outcome (reply c) -> proc R).
Arguments Ret {R} o.
Arguments Do {R} a k.
Arguments Call {R} c k.
Arguments Wait {R} c k.

Definition resolve {R} (r : R) : proc R := Ret (Fulfilled r).

(** The promise returned by an asynchronous collaborator. *)
Definition await (c : request) : proc (reply c) := Call c (Wait c Ret).

(** A synchronous call followed by the rest of the handler. *)
Definition perform (a : action) : proc (result a) := Do a resolve.

Fixpoint settled {A B} (p : proc A) (f : outcome A -> proc B) : proc B :=
  match p with
  | Ret o => f o
  | Do a k => Do a (fun x => settled (k x) f)
  | Call c k => Call c (settled k f)
  | Wait c k => Wait c (fun o => settled (k o) f)
  end.

(** [p.then(f)] *)
Definition then_ {A B} (p : proc A) (f : A -> proc B) : proc B :=
  settled p (fun o =>
    match o with Fulfilled a => f a | Rejected e => Ret (Rejected e) end).

(** [p.otherwise(g)] *)
Definition otherwise {A} (p : proc A) (g : Error -> proc A) : proc A :=
  settled p (fun o =>
    match o with Fulfilled a => Ret (Fulfilled a) | Rejected e => g e end).

(** [p.then(f, g)]: [g] handles a rejection of [p], not one of [f]. *)
Definition then2 {A B} (p : proc A) (f : A -> proc B) (g : Error -> proc B)
  : proc B :=
  settled p (fun o =>
    match o with Fulfilled a => f a | Rejected e => g e end).

(** [when.join(p, q)]: the arguments are evaluated left to right, so the
    synchronous prefix of [p] runs before that of [q]; then the pending
    requests settle in the order the scheduler decides.  The join is
    fulfilled once both are, and rejected as soon as one is; the branch that
    is still pending then has no continuation in the join any more. *)
Fixpoint join {A B} (p : proc A) : proc B -> proc (A * B) :=
  fix joinWith (q : proc B) : proc (A * B) :=
    match p with
    | Do x k => Do x (fun r => join (k r) q)
    | Call c k => Call c (join k q)
    | Ret o =>
        match q with
        | Do x k' => Do x (fun r => joinWith (k' r))
        | Call c' k' => Call c' (joinWith k')
        | _ =>
            match o with
            | Rejected e => Ret (Rejected e)
            | Fulfilled a => then_ q (fun b => resolve (a, b))
            end
        end
    | Wait c k =>
        match q with
        | Do x k' => Do x (fun r => joinWith (k' r))
        | Call c' k' => Call c' (joinWith k')
        | Ret (Rejected e) => Ret (Rejected e)
        | Ret (Fulfilled b) => Wait c (fun o => join (k o) q)
        | Wait c' k' =>
            Do (Race c c') (fun left : bool =>
              if left then Wait c (fun o => join (k o) q)
              else Wait c' (fun o => joinWith (k' o)))
        end
    end.

Notation "p >>= f" := (then_ p f) (at level 50, left associativity).
Notation "p >> q" := (then_ p (fun _ => q)) (at level 50, left associativity).

(** ** The environment of the process *)

(** Everything the module reads from outside: the environment variable,
    the configuration, [__dirname], [path.join], the Node version and the
    range of [package.json] with [semver.satisfies], the requests that fail,
    the order in which concurrent requests settle, the identifiers
    [uuid.v4()] draws and [process.uptime()]. *)
Record World := {
  NODE_ENV : option string;
  config : Config;
  dirname : string;
  pathJoin : list string -> string;
  nodeVersion : string;
  enginesNode : string;
  satisfies : string -> string -> bool;
  fault : request -> option Error;
  settlesFirst : request -> request -> bool;
  uuid : nat -> string;
  uptime : Q
}.

(** The module variable [dbHash], the persisted settings, the notification
    store, the listeners registered with [process.on] and the number of
    identifiers drawn so far. *)
Record State := {
  dbHash : option string;
  settings : gmap string Setting.t;
  notifications : list Notification.t;
  listeners : list (string * Listener);
  drawn : nat
}.

Definition setDbHash (v : string) (st : State) : State :=
  {| dbHash := Some v; settings := settings st;
     notifications := notifications st; listeners := listeners st;
     drawn := drawn st |}.

Definition setSettings (m : gmap string Setting.t) (st : State) : State :=
  {| dbHash := dbHash st; settings := m;
     notifications := notifications st; listeners := listeners st;
     drawn := drawn st |}.

Definition setNotifications (l : list Notification.t) (st : State) : State :=
  {| dbHash := dbHash st; settings := settings st;
     notifications := l; listeners := listeners st;
     drawn := drawn st |}.

Definition setListeners (l : list (string * Listener)) (st : State) : State :=
  {| dbHash := dbHash st; settings := settings st;
     notifications := notifications st; listeners := l;
     drawn := drawn st |}.

Definition setDrawn (n : nat) (st : State) : State :=
  {| dbHash := dbHash st; settings := settings st;
     notifications := notifications st; listeners := listeners st;
     drawn := n |}.

(** Modelled from the spec: [models.Settings.read], the read side of the
    persisted key/value settings store, which is not part of this file.  A
    read is fulfilled with the stored record and rejected when none is
    stored. *)
Definition readSetting (k : string) (st : State) : outcome SettingModel :=
  match settings st !! k with
  | Some s => Fulfilled {| attributes := s |}
  | None => Rejected NotFound
  end.

(** Modelled from the spec: [models.Settings.add], the write side of the
    same store: the record is stored under its key. *)
Definition addSetting (s : Setting.t) (st : State) : State :=
  setSettings (<[Setting.key s := s]> (settings st)) st.

(** Modelled from the spec: [api.notifications.add], which is not part of
    this file: the notification record is added to those there are. *)
Definition addNotification (n : Notification.t) (st : State) : State :=
  setNotifications (notifications st ++ [n]) st.

(** How a pending request settles: it is rejected when the world says it
    fails; otherwise the stores answer, and every other collaborator is
    fulfilled. *)
Definition settle (w : World) (c : request) (st : State)
  : outcome (reply c) * State :=
  match fault w c with
  | Some e => (Rejected e, st)
  | None =>
      match c as c0 return outcome (reply c0) * State with
      | SettingsRead k => (readSetting k st, st)
      | SettingsAdd s => (Fulfilled tt, addSetting s st)
      | NotificationsAdd n => (Fulfilled tt, addNotification n st)
      | ModelsInit | UpdatePaths _ | PopulateDefaults | ApiInit | ThemeUpdate
      | PermissionsInit | MailerInit | PluginsInit | FsUnlink _
      | ServerListen _ => (Fulfilled tt, st)
      end
  end.

(** What an observer of the process sees. *)
Inductive event :=
| Called (c : request)
| Settled (c : request) (err : option Error)
| Performed (a : action).

(** A synchronous call: its events, the new state and its result, [None]
    when the call ends the process. *)
Definition act (w : World) (a : action) (st : State)
  : list event * State * option (result a) :=
  match a as a0 return list event * State * option (result a0) with
  | AssignDbHash v => ([], setDbHash v st, Some tt)
  | ReadDbHash => ([], st, Some (dbHash st))
  | Race l r => ([], st, Some (settlesFirst w l r))
  | UuidV4 => ([Performed UuidV4], setDrawn (S (drawn st)) st,
               Some (uuid w (drawn st)))
  | ProcessExit code => ([Performed (ProcessExit code)], st, None)
  | LogErrorAndExit e => ([Performed (LogErrorAndExit e)], st, None)
  | UncaughtError e => ([Performed (UncaughtError e)], st, None)
  | ProcessOn sig h =>
      ([Performed (ProcessOn sig h)],
       setListeners (listeners st ++ [(sig, h)]) st, Some tt)
  | ProcessUptime => ([], st, Some (uptime w))
  | RequireMonitor => ([Performed RequireMonitor], st, Some tt)
  | PolyglotInstance => ([Performed PolyglotInstance], st, Some tt)
  | MimeDefine => ([Performed MimeDefine], st, Some tt)
  | Express => ([Performed Express], st, Some tt)
  | ServerSet n v => ([Performed (ServerSet n v)], st, Some tt)
  | HbsCreate => ([Performed HbsCreate], st, Some tt)
  | Express3 => ([Performed Express3], st, Some tt)
  | LoadCoreHelpers => ([Performed LoadCoreHelpers], st, Some tt)
  | Middleware s => ([Performed (Middleware s)], st, Some tt)
  | RoutesApi => ([Performed RoutesApi], st, Some tt)
  | RoutesAdmin => ([Performed RoutesAdmin], st, Some tt)
  | RoutesFrontend => ([Performed RoutesFrontend], st, Some tt)
  | ConsoleLog args => ([Performed (ConsoleLog args)], st, Some tt)
  | FsChmod p m => ([Performed (FsChmod p m)], st, Some tt)
  end.

(** A run: the events in order, the final state, and how the computation
    settled ([None] when the process ended first). *)
Record Run (R : Type) := {
  trace : list event;
  final : State;
  settledAs : option (outcome R)
}.
Arguments trace {R} r.
Arguments final {R} r.
Arguments settledAs {R} r.

Definition after {R} (evs : list event) (r : Run R) : Run R :=
  {| trace := evs ++ trace r; final := final r; settledAs := settledAs r |}.

Fixpoint run {R} (w : World) (p : proc R) (st : State) : Run R :=
  match p with
  | Ret o => {| trace := []; final := st; settledAs := Some o |}
  | Do a k =>
      match act w a st with
      | (evs, st', Some x) => after evs (run w (k x) st')
      | (evs, st', None) =>
          {| trace := evs; final := st'; settledAs := None |}
      end
  | Call c k => after [Called c] (run w k st)
  | Wait c k =>
      let (o, st') := settle w c st in
      after [Settled c (rejection o)] (run w (k o) st')
  end.

(** ** The module [core/server/index.js] *)

(** The characters that a string literal of the source holds and a literal
    here cannot: the double quote and the line feed. *)
Definition dq : string :=
  String (Ascii false true false false false true false false) EmptyString.
Definition nl : string :=
  String (Ascii false true false true false false false false) EmptyString.

(** What the module does when it is loaded: in development mode, require
    "when/monitor/console" for help in seeing swallowed promise errors. *)
Definition moduleBody (w : World) : proc unit :=
  match NODE_ENV w with
  | Some "development" => perform RequireMonitor
  | _ => resolve tt
  end.

Definition firstRunMessage (w : World) : list (option string) :=
  [ Some "Welcome to Ghost.";
    Some "You're running under the <strong>";
    NODE_ENV w;
    Some "</strong>environment.";
    Some "Your URL is set to";
    Some ("<strong>" +:+ url (config w) +:+ "</strong>.");
    Some ("See <a href=" +:+ dq +:+ "http://docs.ghost.org/" +:+ dq
          +:+ ">http://docs.ghost.org</a> for instructions.") ].

Definition firstRunNotification (w : World) : Notification.t :=
  {| Notification.type := "info";
     Notification.message := arrayJoin " " (firstRunMessage w);
     Notification.status := "persistent";
     Notification.id := "ghost-first-run" |}.

Definition doFirstRun (w : World) : proc unit :=
  await (NotificationsAdd (firstRunNotification w)).

(** What the promise of [initDbHashAndFirstRun] is fulfilled with: the value
    of [dbHash], or what [api.notifications.add] was fulfilled with. *)
Inductive Resolution :=
| Hash (v : option string)
| Added (r : unit).

Definition dbHashSetting (hash : string) : Setting.t :=
  {| Setting.key := "dbHash"; Setting.value := hash; Setting.type := "core" |}.

Definition initDbHashAndFirstRun (w : World) : proc Resolution :=
  otherwise
    (await (SettingsRead "dbHash") >>= fun hash =>
       (* we already ran this, chill *)
       perform (AssignDbHash (Setting.value (attributes hash))) >>
       perform ReadDbHash >>= fun v => resolve (Hash v))
    (fun error =>
       (* this is where all the "first run" functionality should go *)
       perform UuidV4 >>= fun hash =>
       (await (SettingsAdd (dbHashSetting hash)) >>= (fun _ =>
          perform (AssignDbHash hash) >>
          perform ReadDbHash)) >>= (fun _ =>
          doFirstRun w) >>= fun r => resolve (Added r)).

(** Are we using sockets? Custom socket or the default? *)
Definition getSocket (w : World) : JsValue :=
  match socket (server (config w)) with
  | Some v =>
      if isString v then v
      else JString (pathJoin w [dirname w; "../content/";
                                plusString (NODE_ENV w) +:+ ".socket"])
  | None => JBool false
  end.

Definition isProduction (w : World) : bool :=
  match NODE_ENV w with
  | Some e => String.eqb e "production"
  | None => false
  end.

(** The listeners, as the closures [startGhost] passes to [process.on]. *)
Definition onSigint (h : Listener) : proc unit :=
  match h with
  | ShutdownProduction =>
      perform (ConsoleLog [Coloured red (nl +:+ "Ghost has shut down");
                           Plain (nl +:+ "Your blog is now offline")]) >>
      perform (ProcessExit 0) >>
      resolve tt
  | ShutdownOther =>
      perform ProcessUptime >>= fun t =>
      perform (ConsoleLog [Coloured red (nl +:+ "Ghost has shutdown");
                           Plain (nl +:+ "Ghost was running for");
                           Value (JNumber (Math_round t));
                           Plain "seconds"]) >>
      perform (ProcessExit 0) >>
      resolve tt
  end.

Definition unsupportedVersion (w : World) : list LogArg :=
  [ Coloured red (nl +:+ "ERROR: Unsupported version of Node");
    Coloured red (nl +:+ "Ghost needs Node version");
    Coloured yellow (enginesNode w);
    Coloured red "you are using version";
    Coloured yellow (nodeVersion w);
    Coloured green
      (nl +:+ "Please go to http://nodejs.org to get a supported version") ].

Definition startGhost (w : World) : proc unit :=
  (* Tell users if their node version is not supported, and exit *)
  (if negb (satisfies w (nodeVersion w) (enginesNode w)) then
     perform (ConsoleLog (unsupportedVersion w)) >>
     perform (ProcessExit 0) >>
     resolve tt
   else resolve tt) >>
  (* Startup & Shutdown messages *)
  if isProduction w then
    perform (ConsoleLog [Coloured green "Ghost is running...";
                         Plain (nl +:+ "Your blog is now available on");
                         Plain (url (config w));
                         Coloured grey (nl +:+ "Ctrl+C to shut down")]) >>
    (* ensure that Ghost exits correctly on Ctrl+C *)
    perform (ProcessOn "SIGINT" ShutdownProduction)
  else
    perform (ConsoleLog
               [Coloured green ("Ghost is running in "
                                +:+ plusString (NODE_ENV w) +:+ "...");
                Plain (nl +:+ "Listening on");
                Value (jsOr (getSocket w)
                            (JString (host (server (config w)) +:+ ":"
                                      +:+ port (server (config w)))));
                Plain (nl +:+ "Url configured as:");
                Plain (url (config w));
                Coloured grey (nl +:+ "Ctrl+C to shut down")]) >>
    (* ensure that Ghost exits correctly on Ctrl+C *)
    perform (ProcessOn "SIGINT" ShutdownOther).

(** [fs.unlink(path, cb)]: [cb] receives the error, if any. *)
Definition fsUnlink (path : JsValue) (cb : option Error -> proc unit)
  : proc unit :=
  Call (FsUnlink path) (Wait (FsUnlink path) (fun o => cb (rejection o))).

(** [server.listen(args..., cb)] followed by [next], the code after the
    call: the call returns at once, and [cb] runs when the server has
    started listening.  When it fails to, the server emits 'error'; the
    module has given it no listener for that, so the error is not caught
    and the process ends. *)
Definition serverListen (args : list JsValue) (cb next : proc unit)
  : proc unit :=
  Call (ServerListen args)
    (next >>
     Wait (ServerListen args) (fun o =>
       match o with
       | Fulfilled _ => cb
       | Rejected e => perform (UncaughtError e) >> resolve tt
       end)).

(** A promise nobody waits for: its effects happen, its outcome is lost. *)
Definition detached {A} (p : proc A) : proc unit :=
  settled p (fun _ => resolve tt).

(** The handler given to [plugins.init().then]: Start Ghost App. *)
Definition startApp (w : World) : proc unit :=
  if truthy (getSocket w) then
    (* Make sure the socket is gone before trying to create another *)
    fsUnlink (getSocket w) (fun err =>
      serverListen [getSocket w] (startGhost w)
        (perform (FsChmod (getSocket w) "0744")))
  else
    serverListen [JString (port (server (config w)));
                  JString (host (server (config w)))]
      (startGhost w) (resolve tt).

(** The promise chain whose rejections the second argument of the last
    [then] of [setup] receives. *)
Definition initialisation (w : World) : proc unit :=
  join
    (* Initialise the models *)
    (await ModelsInit)
    (* Calculate paths *)
    (await (UpdatePaths (url (config w)))) >>
  (* Populate any missing default settings *)
  await PopulateDefaults >>
  (* Initialize the settings cache *)
  await ApiInit >>
  await ThemeUpdate >>
  join
    (* Check for or initialise a dbHash. *)
    (initDbHashAndFirstRun w)
    (* Initialize the permissions actions and objects *)
    (await PermissionsInit) >>
  (* Initialise mail after first run *)
  await MailerInit.

(** The last fulfilment handler of [setup]: configuration, view engine,
    middleware, routing, then plugins and the server. *)
Definition configureAndStart (w : World) : proc unit :=
  perform MimeDefine >>
  perform (ServerSet "view engine" (JString "hbs")) >>
  perform HbsCreate >>
  perform Express3 >>
  perform (ServerSet "admin view engine" JObject) >>
  perform LoadCoreHelpers >>
  perform ReadDbHash >>= fun secret =>
  perform (Middleware secret) >>
  perform RoutesApi >>
  perform RoutesAdmin >>
  perform RoutesFrontend >>
  (* Initialize plugins then start the server *)
  detached (await PluginsInit >> startApp w).

Definition setup (w : World) : proc unit :=
  perform PolyglotInstance >>
  then2 (initialisation w)
    (fun _ => configureAndStart w)
    (fun err => perform (LogErrorAndExit err) >> resolve tt).

(** [init(app)]: [app] tells whether the caller passed a server. *)
Definition init (w : World) (app : bool) : proc unit :=
  (if negb app then perform Express else resolve tt) >>
  setup w.

(** The process receives a signal: its listeners run in the order they
    were registered. *)
Fixpoint emit (sig : string) (hs : list (string * Listener)) : proc unit :=
  match hs with
  | [] => resolve tt
  | (s, h) :: rest =>
      if String.eqb s sig then onSigint h >> emit sig rest
      else emit sig rest
  end.

Definition deliver (w : World) (sig : string) (st : State) : Run unit :=
  run w (emit sig (listeners st)) st.

(** The state of a process that has just loaded the module. *)
Definition boot (store : gmap string Setting.t) : State :=
  {| dbHash := None; settings := store; notifications := [];
     listeners := []; drawn := 0 |}.

(** ** Reading traces *)

(** Every event of [t] that satisfies [Q] comes after one that satisfies
    [P]. *)
Definition precedes (P Q : event -> Prop) (t : list event) : Prop :=
  forall l1 e l2, t = l1 ++ e :: l2 -> Q e ->
    exists e', In e' l1 /\ P e'.

(** Every event of [t] that satisfies [P] is followed at once by one that
    satisfies [Q]. *)
Definition nextIs (P Q : event -> Prop) (t : list event) : Prop :=
  forall l1 e l2, t = l1 ++ e :: l2 -> P e ->
    exists e' l3, l2 = e' :: l3 /\ Q e'.

(** [t] ends with the events [s]. *)
Definition endsWith (s t : list event) : Prop := exists pre, t = pre ++ s.

Definition isUuidV4 (e : event) : bool :=
  match e with Performed UuidV4 => true | _ => false end.

Definition isNotificationsAdd (e : event) : bool :=
  match e with Called (NotificationsAdd _) => true | _ => false end.

Definition isSettingsAdd (e : event) : bool :=
  match e with Called (SettingsAdd _) => true | _ => false end.

Definition isServerListen (e : event) : bool :=
  match e with Called (ServerListen _) => true | _ => false end.

Definition isLogErrorAndExit (e : event) : bool :=
  match e with Performed (LogErrorAndExit _) => true | _ => false end.

Definition isProcessOn (e : event) : bool :=
  match e with Performed (ProcessOn _ _) => true | _ => false end.

Definition count (P : event -> bool) (t : list event) : nat :=
  length (List.filter P t).

(** The listeners that the events of a trace register. *)
Fixpoint registered (t : list event) : list (string * Listener) :=
  match t with
  | [] => []
  | Performed (ProcessOn sig h) :: t' => (sig, h) :: registered t'
  | _ :: t' => registered t'
  end.

(** [s] occurs in [t] as a contiguous piece of text. *)
Definition contains (s t : string) : Prop :=
  exists pre post, t = pre +:+ s +:+ post.

(** The first [n] steps of a run: the events so far and the state reached. *)
Fixpoint runFor {R} (n : nat) (w : World) (p : proc R) (st : State)
  : list event * State :=
  match n with
  | O => ([], st)
  | S n' =>
      match p with
      | Ret _ => ([], st)
      | Do a k =>
          match act w a st with
          | (evs, st', Some x) =>
              let (t, s) := runFor n' w (k x) st' in (evs ++ t, s)
          | (evs, st', None) => (evs, st')
          end
      | Call c k =>
          let (t, s) := runFor n' w k st in (Called c :: t, s)
      | Wait c k =>
          let (o, st') := settle w c st in
          let (t, s) := runFor n' w (k o) st' in
          (Settled c (rejection o) :: t, s)
      end
  end.

(** What follows a settled computation. *)
Definition andThen {A B} (r : Run A) (k : outcome A -> State -> Run B)
  : Run B :=
  match settledAs r with
  | Some o => after (trace r) (k o (final r))
  | None => {| trace := trace r; final := final r; settledAs := None |}
  end.

(** The requests and calls of the initialisation chain. *)
Definition isInitRequest (c : request) : bool :=
  match c with
  | ModelsInit | UpdatePaths _ | PopulateDefaults | ApiInit | ThemeUpdate
  | SettingsRead _ | SettingsAdd _ | NotificationsAdd _ | PermissionsInit
  | MailerInit => true
  | PluginsInit | FsUnlink _ | ServerListen _ => false
  end.

Definition isInitEvent (e : event) : bool :=
  match e with
  | Called c | Settled c _ => isInitRequest c
  | Performed UuidV4 => true
  | Performed _ => false
  end.

(** How [setup] ends once the initialisation chain has settled: with the
    last fulfilment handler, or with the rejection handler. *)
Definition conclusion (w : World) (i : Run unit) : Run unit :=
  match settledAs i with
  | Some (Fulfilled _) => run w (configureAndStart w) (final i)
  | Some (Rejected e) =>
      {| trace := [Performed (LogErrorAndExit e)]; final := final i;
         settledAs := None |}
  | None => {| trace := []; final := final i; settledAs := None |}
  end.

(** The events of the last fulfilment handler of [setup] and of what it
    starts. *)
Definition isStartEvent (e : event) : bool :=
  match e with
  | Called c | Settled c _ => negb (isInitRequest c)
  | Performed RequireMonitor | Performed PolyglotInstance | Performed UuidV4
  | Performed (LogErrorAndExit _) => false
  | Performed _ => true
  end.

(** The requests whose rejection rejects a stage of the initialisation
    chain.  The read of 'dbHash' is not one of them: its rejection is what
    the [otherwise] handler of [initDbHashAndFirstRun] is there for. *)
Definition rejectsStage (c : request) : bool :=
  match c with
  | ModelsInit | UpdatePaths _ | PopulateDefaults | ApiInit | ThemeUpdate
  | SettingsAdd _ | NotificationsAdd _ | PermissionsInit | MailerInit => true
  | SettingsRead _ | PluginsInit | FsUnlink _ | ServerListen _ => false
  end.

(** The hash is resolved: the stored one was read, or the first run ended
    with its notification. *)
Definition dbHashResolved (e : event) : Prop :=
  e = Settled (SettingsRead "dbHash") None
  \/ exists n, e = Settled (NotificationsAdd n) None.

(** The server is listening and the process has not ended: [startGhost]
    has run through. *)
Definition startedUp (r : Run unit) : Prop :=
  (exists args, In (Settled (ServerListen args) None) (trace r))
  /\ settledAs r = Some (Fulfilled tt).

(** ** Example installations *)

(** A development installation listening on a TCP port, as the example
    configuration shipped with Ghost describes it. *)
Definition development : World := {|
  NODE_ENV := Some "development";
  config := {| url := "http://my-ghost-blog.com";
               server := {| host := "127.0.0.1"; port := "2368";
                            socket := None |} |};
  dirname := "/var/www/ghost/core/server";
  pathJoin := fun _ => "/var/www/ghost/core/content/development.socket";
  nodeVersion := "0.10.21";
  enginesNode := "~0.10.0";
  satisfies := fun _ _ => true;
  fault := fun _ => None;
  settlesFirst := fun _ _ => true;
  uuid := fun _ => "110ec58a-a0f2-4ac4-8393-c866d813b8d1";
  uptime := 7 # 2
|}.

(** The same installation with another server section. *)
Definition withServer (s : ServerConfig) (w : World) : World := {|
  NODE_ENV := NODE_ENV w;
  config := {| url := url (config w); server := s |};
  dirname := dirname w; pathJoin := pathJoin w;
  nodeVersion := nodeVersion w; enginesNode := enginesNode w;
  satisfies := satisfies w; fault := fault w;
  settlesFirst := settlesFirst w; uuid := uuid w; uptime := uptime w
|}.

(** The same installation on a Node version that [semver] judges as
    [ok]. *)
Definition withNode (version : string) (ok : bool) (w : World) : World := {|
  NODE_ENV := NODE_ENV w; config := config w;
  dirname := dirname w; pathJoin := pathJoin w;
  nodeVersion := version; enginesNode := enginesNode w;
  satisfies := fun _ _ => ok; fault := fault w;
  settlesFirst := settlesFirst w; uuid := uuid w; uptime := uptime w
|}.

(** The same installation with other failing requests. *)
Definition withFault (f : request -> option Error) (w : World) : World := {|
  NODE_ENV := NODE_ENV w; config := config w;
  dirname := dirname w; pathJoin := pathJoin w;
  nodeVersion := nodeVersion w; enginesNode := enginesNode w;
  satisfies := satisfies w; fault := f;
  settlesFirst := settlesFirst w; uuid := uuid w; uptime := uptime w
|}.

Definition onSocket : World :=
  withServer {| host := "127.0.0.1"; port := "2368";
                socket := Some (JString "/tmp/ghost.sock") |} development.

(** An installation whose plugins fail to initialise. *)
Definition brokenPlugins : World :=
  withFault (fun c => match c with
                      | PluginsInit => Some (Failure "plugin")
                      | _ => None
                      end) development.

(** An installation whose mail set-up fails. *)
Definition brokenMail : World :=
  withFault (fun c => match c with
                      | MailerInit => Some (Failure "mail")
                      | _ => None
                      end) development.

(** The same installation on a version of Node that is not supported. *)
Definition onOldNode : World := withNode "0.8.26" false development.

(** ** More vocabulary *)

(** Every request is fulfilled. *)
Definition noFaults (w : World) : Prop := forall c, fault w c = None.

(** The arguments that [startApp] gives to [server.listen]. *)
Definition listenArgs (w : World) : list JsValue :=
  if truthy (getSocket w) then [getSocket w]
  else [JString (port (server (config w)));
        JString (host (server (config w)))].

(** The address that [startGhost] logs outside production. *)
Definition loggedAddress (w : World) : JsValue :=
  jsOr (getSocket w)
       (JString (host (server (config w)) +:+ ":"
                 +:+ port (server (config w)))).

Definition isExpress (e : event) : bool :=
  match e with Performed Express => true | _ => false end.

Definition isConsoleLog (e : event) : bool :=
  match e with Performed (ConsoleLog _) => true | _ => false end.

Definition isListenCall (e : event) : Prop :=
  exists args, e = Called (ServerListen args).

(** An installation whose [socket] option is the empty string. *)
Definition emptySocket : World :=
  withServer {| host := "127.0.0.1"; port := "2368";
                socket := Some (JString "") |} development.

(** An installation in production. *)
Definition inProduction (w : World) : World := {|
  NODE_ENV := Some "production"; config := config w;
  dirname := dirname w; pathJoin := pathJoin w;
  nodeVersion := nodeVersion w; enginesNode := enginesNode w;
  satisfies := satisfies w; fault := fault w;
  settlesFirst := settlesFirst w; uuid := uuid w; uptime := uptime w
|}.

(** The calls of [fs]. *)
Definition isFileSystem (e : event) : bool :=
  match e with
  | Called (FsUnlink _) | Settled (FsUnlink _) _
  | Performed (FsChmod _ _) => true
  | _ => false
  end.


(** A new process on the same installation: the module variable is not
    assigned yet and nothing listens for signals; the stores are those the
    last process left. *)
Definition reboot (st : State) : State :=
  {| dbHash := None; settings := settings st;
     notifications := notifications st; listeners := []; drawn := drawn st |}.

(** The installation started again and again, each time in the world of
    that start; the state is the one the last start has left. *)
Fixpoint restarts (ws : list World) (st : State) : State :=
  match ws with
  | [] => st
  | w :: rest =>
      restarts rest (final (run w (initDbHashAndFirstRun w) (reboot st)))
  end.

(** * Properties *)

(** ** Sanity checks *)

Example round_half_up : Math_round (7 # 2) = 4%Z /\ Math_round (1 # 4) = 0%Z.
Proof. split; reflexivity. Qed.

Example join_undefined :
  arrayJoin " " [Some "a"; None; Some "b"] = "a  b"
  /\ plusString None +:+ ".socket" = "undefined.socket".
Proof. split; reflexivity. Qed.

Example welcome :
  Notification.message (firstRunNotification development)
  = "Welcome to Ghost. You're running under the <strong> development "
    +:+ "</strong>environment. Your URL is set to "
    +:+ "<strong>http://my-ghost-blog.com</strong>. See <a href=" +:+ dq
    +:+ "http://docs.ghost.org/" +:+ dq
    +:+ ">http://docs.ghost.org</a> for instructions.".
Proof. reflexivity. Qed.

(** The first start of the example installation, from the first call to
    the registration of the interrupt listener. *)
Example first_start :
  let hash := dbHashSetting "110ec58a-a0f2-4ac4-8393-c866d813b8d1" in
  let welcome := firstRunNotification development in
  let target := [JString "2368"; JString "127.0.0.1"] in
  trace (run development (setup development) (boot ∅))
  = [ Performed PolyglotInstance;
      Called ModelsInit;
      Called (UpdatePaths "http://my-ghost-blog.com");
      Settled ModelsInit None;
      Settled (UpdatePaths "http://my-ghost-blog.com") None;
      Called PopulateDefaults; Settled PopulateDefaults None;
      Called ApiInit; Settled ApiInit None;
      Called ThemeUpdate; Settled ThemeUpdate None;
      Called (SettingsRead "dbHash");
      Called PermissionsInit;
      Settled (SettingsRead "dbHash") (Some NotFound);
      Performed UuidV4;
      Called (SettingsAdd hash); Settled (SettingsAdd hash) None;
      Called (NotificationsAdd welcome);
      Settled (NotificationsAdd welcome) None;
      Settled PermissionsInit None;
      Called MailerInit; Settled MailerInit None;
      Performed MimeDefine;
      Performed (ServerSet "view engine" (JString "hbs"));
      Performed HbsCreate;
      Performed Express3;
      Performed (ServerSet "admin view engine" JObject);
      Performed LoadCoreHelpers;
      Performed (Middleware (Some "110ec58a-a0f2-4ac4-8393-c866d813b8d1"));
      Performed RoutesApi; Performed RoutesAdmin; Performed RoutesFrontend;
      Called PluginsInit; Settled PluginsInit None;
      Called (ServerListen target); Settled (ServerListen target) None;
      Performed (ConsoleLog
        [ Coloured green "Ghost is running in development...";
          Plain (nl +:+ "Listening on");
          Value (JString "127.0.0.1:2368");
          Plain (nl +:+ "Url configured as:");
          Plain "http://my-ghost-blog.com";
          Coloured grey (nl +:+ "Ctrl+C to shut down") ]);
      Performed (ProcessOn "SIGINT" ShutdownOther) ].
Proof. reflexivity. Qed.

(** The second start of the same installation reads the hash back. *)
Example second_start :
  let store := settings (final (run development (setup development) (boot ∅))) in
  let r := run development (initDbHashAndFirstRun development) (boot store) in
  trace r = [ Called (SettingsRead "dbHash");
              Settled (SettingsRead "dbHash") None ]
  /\ settledAs r
     = Some (Fulfilled (Hash (Some "110ec58a-a0f2-4ac4-8393-c866d813b8d1"))).
Proof. split; reflexivity. Qed.

(** A read that fails for another reason than a missing hash is taken for
    a first run all the same: the stored hash is replaced. *)
Example failed_read_draws_again :
  let w := withFault (fun c => match c with
                               | SettingsRead _ => Some (Failure "timeout")
                               | _ => None
                               end) development in
  let old := dbHashSetting "0f0e0d0c-0b0a-4908-8706-050403020100" in
  let r := run w (initDbHashAndFirstRun w) (boot {[ "dbHash" := old ]}) in
  settings (final r) !! "dbHash"
  = Some (dbHashSetting "110ec58a-a0f2-4ac4-8393-c866d813b8d1")
  /\ notifications (final r) = [firstRunNotification w].
Proof. split; reflexivity. Qed.

(** Permissions may settle while the first run is under way. *)
Example permissions_first :
  let w := {| NODE_ENV := NODE_ENV development; config := config development;
              dirname := dirname development;
              pathJoin := pathJoin development;
              nodeVersion := nodeVersion development;
              enginesNode := enginesNode development;
              satisfies := satisfies development;
              fault := fault development;
              settlesFirst := fun _ _ => false;
              uuid := uuid development; uptime := uptime development |} in
  firstn 6 (skipn 11 (trace (run w (setup w) (boot ∅))))
  = [ Called (SettingsRead "dbHash");
      Called PermissionsInit;
      Settled PermissionsInit None;
      Settled (SettingsRead "dbHash") (Some NotFound);
      Performed UuidV4;
      Called (SettingsAdd
                (dbHashSetting "110ec58a-a0f2-4ac4-8393-c866d813b8d1")) ].
Proof. reflexivity. Qed.

(** A socket path is unlinked, listened on and given its mode; the listen
    callback then logs the path. *)
Example socket_start :
  firstn 5 (skipn 34 (trace (run onSocket (setup onSocket) (boot ∅))))
  = [ Called (FsUnlink (JString "/tmp/ghost.sock"));
      Settled (FsUnlink (JString "/tmp/ghost.sock")) None;
      Called (ServerListen [JString "/tmp/ghost.sock"]);
      Performed (FsChmod (JString "/tmp/ghost.sock") "0744");
      Settled (ServerListen [JString "/tmp/ghost.sock"]) None ].
Proof. reflexivity. Qed.

(** The port is taken: [server.listen] fails, nobody listens for the
    'error' event of the server, and the process ends. *)
Example port_taken :
  let w := withFault (fun c => match c with
                               | ServerListen _ => Some (Failure "EADDRINUSE")
                               | _ => None
                               end) development in
  settledAs (run w (setup w) (boot ∅)) = None
  /\ last (trace (run w (setup w) (boot ∅)))
     = Some (Performed (UncaughtError (Failure "EADDRINUSE"))).
Proof. split; reflexivity. Qed.

(** [socket: true] asks for the default path; an empty [socket] string is
    returned as it is and, being falsy, leaves the server on its port. *)
Example socket_default_and_empty :
  let flag := withServer {| host := "127.0.0.1"; port := "2368";
                            socket := Some (JBool true) |} development in
  let empty := withServer {| host := "127.0.0.1"; port := "2368";
                             socket := Some (JString "") |} development in
  getSocket flag = JString "/var/www/ghost/core/content/development.socket"
  /\ getSocket empty = JString ""
  /\ hd_error (trace (run empty (startApp empty) (boot ∅)))
     = Some (Called (ServerListen [JString "2368"; JString "127.0.0.1"])).
Proof. repeat split; reflexivity. Qed.

(** ** Traces *)

Section TraceFacts.
Variables P Q : event -> Prop.

Lemma precedes_nil : precedes P Q [].
Proof. intros [|x l1] e l2 H; discriminate H. Qed.

Lemma precedes_skip e t : ~ Q e -> precedes P Q t -> precedes P Q (e :: t).
Proof.
  intros Hn Ht [|x l1] e0 l2 H Hq; simpl in H; injection H as -> H.
  - contradiction.
  - destruct (Ht l1 e0 l2 H Hq) as (e' & Hin & Hp).
    exists e'. split; [now right | exact Hp].
Qed.

Lemma precedes_found e t : P e -> ~ Q e -> precedes P Q (e :: t).
Proof.
  intros Hp Hn [|x l1] e0 l2 H Hq; simpl in H; injection H as -> H.
  - contradiction.
  - exists x. split; [now left | exact Hp].
Qed.

Lemma nextIs_nil : nextIs P Q [].
Proof. intros [|x l1] e l2 H; discriminate H. Qed.

Lemma nextIs_skip e t : ~ P e -> nextIs P Q t -> nextIs P Q (e :: t).
Proof.
  intros Hn Ht [|x l1] e0 l2 H Hp; simpl in H; injection H as -> H.
  - contradiction.
  - exact (Ht l1 e0 l2 H Hp).
Qed.

Lemma nextIs_hit e e' t :
  Q e' -> nextIs P Q (e' :: t) -> nextIs P Q (e :: e' :: t).
Proof.
  intros Hq Ht [|x l1] e0 l2 H Hp; simpl in H; injection H as -> H.
  - exists e', t. split; [now symmetry | exact Hq].
  - exact (Ht l1 e0 l2 H Hp).
Qed.

Lemma precedes_app t1 t2 :
  precedes P Q t1 -> (forall e, In e t2 -> ~ Q e) ->
  precedes P Q (t1 ++ t2).
Proof.
  intros H1 H2 l1 e l2 H Hq.
  destruct (app_eq_app _ _ _ _ H) as [l [[-> Hl]|[-> Hl]]].
  - destruct l as [|x l]; cbn in Hl.
    + exfalso. apply (H2 e); [|exact Hq]. rewrite <- Hl. now left.
    + injection Hl as <- _.
      exact (H1 l1 e l eq_refl Hq).
  - exfalso. apply (H2 e); [|exact Hq].
    rewrite Hl. apply in_or_app. right. now left.
Qed.

Lemma nextIs_app t1 t2 :
  nextIs P Q t1 -> (forall e, In e t2 -> ~ P e) -> nextIs P Q (t1 ++ t2).
Proof.
  intros H1 H2 l1 e l2 H Hp.
  destruct (app_eq_app _ _ _ _ H) as [l [[-> Hl]|[-> Hl]]].
  - destruct l as [|x l]; cbn in Hl.
    + exfalso. apply (H2 e); [|exact Hp]. rewrite <- Hl. now left.
    + injection Hl as <- ->.
      destruct (H1 l1 e l eq_refl Hp) as (e' & l3 & -> & Hq').
      exists e', (l3 ++ t2). split; [reflexivity | exact Hq'].
  - exfalso. apply (H2 e); [|exact Hp].
    rewrite Hl. apply in_or_app. right. now left.
Qed.

Lemma precedes_app_r t1 t2 :
  (forall e, In e t1 -> ~ Q e) -> precedes P Q t2 ->
  precedes P Q (t1 ++ t2).
Proof.
  intros H1 H2 l1 e l2 H Hq.
  destruct (app_eq_app _ _ _ _ H) as [l [[-> Hl]|[-> Hl]]].
  - destruct l as [|x l]; cbn in Hl.
    + subst t2.
      destruct (H2 [] e l2 eq_refl Hq) as (e' & [] & _).
    + injection Hl as <- _. exfalso. apply (H1 e); [|exact Hq].
      apply in_or_app. right. now left.
  - destruct (H2 l e l2 Hl Hq) as (e' & Hin & Hp).
    exists e'. split; [|exact Hp]. apply in_or_app. now right.
Qed.

Lemma nextIs_app_r t1 t2 :
  (forall e, In e t1 -> ~ P e) -> nextIs P Q t2 -> nextIs P Q (t1 ++ t2).
Proof.
  intros H1 H2 l1 e l2 H Hp.
  destruct (app_eq_app _ _ _ _ H) as [l [[-> Hl]|[-> Hl]]].
  - destruct l as [|x l]; cbn in Hl.
    + subst t2. exact (H2 [] e l2 eq_refl Hp).
    + injection Hl as <- _. exfalso. apply (H1 e); [|exact Hp].
      apply in_or_app. right. now left.
  - exact (H2 l e l2 Hl Hp).
Qed.

Lemma endsWith_here (s : list event) : endsWith s s.
Proof. now exists []. Qed.

Lemma endsWith_later (s : list event) e t : endsWith s t -> endsWith s (e :: t).
Proof. intros [pre ->]. now exists (e :: pre). Qed.

Lemma endsWith_app (s t1 t2 : list event) :
  endsWith s t2 -> endsWith s (t1 ++ t2).
Proof. intros [pre ->]. exists (t1 ++ pre). now rewrite app_assoc. Qed.
End TraceFacts.

Lemma precedes_prefix (P Q : event -> Prop) (t t' : list event) :
  precedes P Q (t ++ t') ->
  (forall e, In e t -> ~ P e) ->
  forall e, In e t -> ~ Q e.
Proof.
  intros Hpre Hno e Hin Hq.
  destruct (in_split _ _ Hin) as (l1 & l2 & ->).
  destruct (Hpre l1 e (l2 ++ t')) as (e' & Hin' & Hp).
  - now rewrite <- app_assoc.
  - exact Hq.
  - apply (Hno e'); [|exact Hp]. apply in_or_app. now left.
Qed.

Lemma registered_app (t t' : list event) :
  registered (t ++ t') = registered t ++ registered t'.
Proof.
  induction t as [|e t IH]; [reflexivity|].
  destruct e as [c|c o|a]; simpl; try exact IH.
  destruct a; simpl; try exact IH. now rewrite IH.
Qed.

Lemma registered_none (t : list event) :
  (forall sig h, ~ In (Performed (ProcessOn sig h)) t) -> registered t = [].
Proof.
  induction t as [|e t IH]; intros H; [reflexivity|].
  assert (Ht : registered t = []).
  { apply IH. intros sig h Hin. apply (H sig h). now right. }
  destruct e as [c|c o|a]; simpl; try exact Ht.
  destruct a; simpl; try exact Ht.
  exfalso. apply (H signal h). now left.
Qed.

(** ** The interpreter *)

Lemma act_listeners (w : World) (a : action) (st : State) :
  listeners (snd (fst (act w a st)))
  = listeners st ++ registered (fst (fst (act w a st))).
Proof. destruct a; simpl; now rewrite ?app_nil_r. Qed.

Lemma settle_listeners (w : World) (c : request) (st : State) :
  listeners (snd (settle w c st)) = listeners st.
Proof. unfold settle. destruct (fault w c); [reflexivity|]. now destruct c. Qed.

(** The listeners of the state reached are those registered so far. *)
Lemma runFor_listeners {R} (n : nat) (w : World) :
  forall (p : proc R) (st : State),
    listeners (snd (runFor n w p st))
    = listeners st ++ registered (fst (runFor n w p st)).
Proof.
  induction n as [|n IH]; intros p st; simpl.
  - now rewrite app_nil_r.
  - destruct p as [o|a k|c k|c k]; simpl.
    + now rewrite app_nil_r.
    + pose proof (act_listeners w a st) as Ha.
      destruct (act w a st) as [[evs st'] [x|]]; simpl in Ha.
      * specialize (IH (k x) st').
        destruct (runFor n w (k x) st') as [t s]; simpl in *.
        now rewrite IH, Ha, registered_app, app_assoc.
      * exact Ha.
    + specialize (IH k st).
      destruct (runFor n w k st) as [t s]; simpl in *. exact IH.
    + pose proof (settle_listeners w c st) as Hs.
      destruct (settle w c st) as [o st']; simpl in Hs.
      specialize (IH (k o) st').
      destruct (runFor n w (k o) st') as [t s]; simpl in *.
      now rewrite IH, Hs.
Qed.

(** The first steps of a run are a prefix of the whole run. *)
Lemma runFor_prefix {R} (n : nat) (w : World) :
  forall (p : proc R) (st : State),
    exists rest, trace (run w p st) = fst (runFor n w p st) ++ rest.
Proof.
  induction n as [|n IH]; intros p st; simpl.
  - now eexists.
  - destruct p as [o|a k|c k|c k]; simpl.
    + now eexists.
    + destruct (act w a st) as [[evs st'] [x|]]; simpl.
      * destruct (IH (k x) st') as [rest Hrest].
        destruct (runFor n w (k x) st') as [t s]; simpl in *.
        exists rest. now rewrite Hrest, app_assoc.
      * exists []. now rewrite app_nil_r.
    + destruct (IH k st) as [rest Hrest].
      destruct (runFor n w k st) as [t s]; simpl in *.
      exists rest. now rewrite Hrest.
    + destruct (settle w c st) as [o st'].
      destruct (IH (k o) st') as [rest Hrest].
      destruct (runFor n w (k o) st') as [t s]; simpl in *.
      exists rest. now rewrite Hrest.
Qed.

(** ** Symbolic execution of the module *)

(* The stores and the texts stay folded while a run is unfolded. *)
#[local] Arguments readSetting : simpl never.
#[local] Arguments addSetting : simpl never.
#[local] Arguments addNotification : simpl never.
#[local] Arguments setDbHash : simpl never.
#[local] Arguments setDrawn : simpl never.
#[local] Arguments setListeners : simpl never.
#[local] Arguments arrayJoin : simpl never.
#[local] Arguments firstRunNotification : simpl never.
#[local] Arguments unsupportedVersion : simpl never.
#[local] Arguments getSocket : simpl never.
#[local] Arguments Math_round : simpl never.

(** One question to the world: does this request fail, which of two
    requests settles first, is the hash stored, is a socket configured, is
    the Node version supported, is this production. *)
Ltac ask :=
  match goal with
  | |- context [fault ?w ?c] => destruct (fault w c) eqn:?
  | |- context [settlesFirst ?w ?a ?b] => destruct (settlesFirst w a b) eqn:?
  | |- context [readSetting ?k ?s] => destruct (readSetting k s) eqn:?
  | |- context [truthy ?v] => destruct (truthy v) eqn:?
  | |- context [satisfies ?w ?a ?b] => destruct (satisfies w a b) eqn:?
  | |- context [isProduction ?w] => destruct (isProduction w) eqn:?
  end.

Ltac unfold_module :=
  unfold setup, configureAndStart, startApp, startGhost, fsUnlink,
    serverListen, detached, initialisation, initDbHashAndFirstRun,
    doFirstRun, await, perform, then2, then_, otherwise, resolve.

(** All the runs of a computation, one goal for each. *)
Ltac explore := unfold_module; repeat (cbn; try unfold settle; ask); cbn.

Ltac refute H :=
  lazymatch type of H with
  | ex _ => let x := fresh in destruct H as [x H]; refute H
  | _ \/ _ => destruct H as [H|H]; refute H
  | _ => discriminate H
  end.

Ltac differs := let H := fresh in intro H; refute H.

Ltac earlier :=
  repeat first
    [ apply precedes_nil
    | apply precedes_found; [solve [eauto] | differs]
    | apply precedes_skip; [differs|] ].

Ltac atOnce :=
  repeat first
    [ apply nextIs_nil
    | apply nextIs_skip; [differs|]
    | apply nextIs_hit; [solve [eauto]|] ].

Ltac atTheEnd :=
  repeat first [ apply endsWith_here | apply endsWith_later ].

Lemma append_assoc (a b c : string) : (a +:+ b) +:+ c = a +:+ (b +:+ c).
Proof.
  induction a as [|x a IH]; [reflexivity|].
  change (String x ((a +:+ b) +:+ c) = String x (a +:+ (b +:+ c))).
  now rewrite IH.
Qed.

(** ** The first-run notification *)

Lemma message_has_environment (w : World) (env : string) :
  NODE_ENV w = Some env ->
  contains env (Notification.message (firstRunNotification w)).
Proof.
  intros H. unfold firstRunNotification, firstRunMessage. rewrite H.
  exists "Welcome to Ghost. You're running under the <strong> ".
  eexists. reflexivity.
Qed.

Lemma message_has_url (w : World) :
  contains (url (config w)) (Notification.message (firstRunNotification w)).
Proof.
  unfold firstRunNotification, firstRunMessage.
  exists ("Welcome to Ghost. You're running under the <strong> "
          +:+ joinElement (NODE_ENV w)
          +:+ " </strong>environment. Your URL is set to <strong>").
  exists ("</strong>. See <a href=" +:+ dq +:+ "http://docs.ghost.org/" +:+ dq
          +:+ ">http://docs.ghost.org</a> for instructions.").
  cbv beta iota zeta delta [arrayJoin Notification.message].
  cbn [joinElement]. rewrite !append_assoc. reflexivity.
Qed.

(** C9. Every first-run notification that [doFirstRun] creates has type
    'info', the fixed identifier 'ghost-first-run', status 'persistent', and
    a message that contains the name of the deployment environment and the
    configured URL. *)
Theorem doFirstRun_notification
    (w : World) (st : State) (env : string) (n : Notification.t) :
  NODE_ENV w = Some env ->
  In (Called (NotificationsAdd n)) (trace (run w (doFirstRun w) st)) ->
  Notification.type n = "info"
  /\ Notification.id n = "ghost-first-run"
  /\ Notification.status n = "persistent"
  /\ contains env (Notification.message n)
  /\ contains (url (config w)) (Notification.message n).
Proof.
  intros Henv Hin.
  assert (Hn : n = firstRunNotification w).
  { revert Hin. explore.
    - intros [H|[H|[]]]; [now injection H | discriminate H].
    - intros [H|[H|[]]]; [now injection H | discriminate H]. }
  subst n. repeat split.
  - now apply message_has_environment.
  - apply message_has_url.
Qed.

Lemma doFirstRun_notification_witness :
  NODE_ENV development = Some "development"
  /\ Notification.id (firstRunNotification development) = "ghost-first-run"
  /\ contains "development"
       (Notification.message (firstRunNotification development)).
Proof.
  split; [reflexivity|].
  destruct (doFirstRun_notification development (boot ∅) "development"
              (firstRunNotification development))
    as (_ & Hid & _ & Henv & _).
  - reflexivity.
  - left. reflexivity.
  - split; [exact Hid | exact Henv].
Defined.

(** ** The installation hash *)

Lemma readSetting_absent (st : State) :
  settings st !! "dbHash" = None -> readSetting "dbHash" st = Rejected NotFound.
Proof. intros H. unfold readSetting. now rewrite H. Qed.

Lemma readSetting_stored (st : State) (s : Setting.t) :
  settings st !! "dbHash" = Some s ->
  readSetting "dbHash" st = Fulfilled {| attributes := s |}.
Proof. intros H. unfold readSetting. now rewrite H. Qed.

Lemma addSetting_stored (hash : string) (st : State) :
  settings (addSetting (dbHashSetting hash) st) !! "dbHash"
  = Some (dbHashSetting hash).
Proof. unfold addSetting. cbn. apply lookup_insert_eq. Qed.

(** C4. Whatever error the read of 'dbHash' is rejected with, not-found or
    any other failure, [initDbHashAndFirstRun] takes the same path: it draws
    a new hash, asks the store to add it under 'dbHash' and, once the store
    has it, creates the first-run notification.  The error of the read shows
    nowhere but in the rejected read itself: the rest of the run, the state
    reached and the way the promise settles do not depend on it. *)
Theorem read_error_not_distinguished (w : World) (st : State) (e : Error) :
  fst (settle w (SettingsRead "dbHash") st) = Rejected e ->
  let r := run w (initDbHashAndFirstRun w) st in
  let hash := uuid w (drawn st) in
  let add := SettingsAdd (dbHashSetting hash) in
  let notify := NotificationsAdd (firstRunNotification w) in
  let stored := setDbHash hash (addSetting (dbHashSetting hash)
                                  (setDrawn (S (drawn st)) st)) in
  trace r
  = [Called (SettingsRead "dbHash");
     Settled (SettingsRead "dbHash") (Some e);
     Performed UuidV4;
     Called add;
     Settled add (fault w add)]
    ++ match fault w add with
       | Some _ => []
       | None => [Called notify; Settled notify (fault w notify)]
       end
  /\ settledAs r
     = Some match fault w add, fault w notify with
            | Some e1, _ => Rejected e1
            | None, Some e2 => Rejected e2
            | None, None => Fulfilled (Added tt)
            end
  /\ final r
     = match fault w add, fault w notify with
       | Some _, _ => setDrawn (S (drawn st)) st
       | None, Some _ => stored
       | None, None => addNotification (firstRunNotification w) stored
       end.
Proof.
  unfold settle. intros Hread. unfold_module. cbn. unfold settle.
  destruct (fault w (SettingsRead "dbHash")) as [e0|]; cbn in Hread |- *.
  - injection Hread as ->.
    unfold settle. destruct (fault w (SettingsAdd _)); cbn; [easy|].
    unfold settle. destruct (fault w (NotificationsAdd _)); cbn; easy.
  - destruct (readSetting "dbHash" st); [discriminate Hread|].
    injection Hread as ->. cbn.
    unfold settle. destruct (fault w (SettingsAdd _)); cbn; [easy|].
    unfold settle. destruct (fault w (NotificationsAdd _)); cbn; easy.
Qed.

Lemma read_error_not_distinguished_witness :
  settledAs (run development (initDbHashAndFirstRun development) (boot ∅))
  = Some (Fulfilled (Added tt)).
Proof.
  destruct (read_error_not_distinguished development (boot ∅) NotFound)
    as (_ & Hsettled & _).
  - reflexivity.
  - exact Hsettled.
Defined.

(** C1. On a fresh installation (no hash stored, so the read of 'dbHash' is
    rejected) whose store takes the new record, [initDbHashAndFirstRun]
    draws exactly one hash, stores it under 'dbHash', keeps it in [dbHash]
    and creates exactly one first-run notification.  On every start where
    the read is fulfilled, and so on every later start of that
    installation, no hash is drawn, no notification is created, and
    [dbHash] is the stored value. *)
Theorem first_run_then_reuse (w : World) (st : State) :
  settings st !! "dbHash" = None ->
  fault w (SettingsAdd (dbHashSetting (uuid w (drawn st)))) = None ->
  let first := run w (initDbHashAndFirstRun w) st in
  let hash := uuid w (drawn st) in
  count isUuidV4 (trace first) = 1
  /\ count isSettingsAdd (trace first) = 1
  /\ In (Called (SettingsAdd (dbHashSetting hash))) (trace first)
  /\ settings (final first) !! "dbHash" = Some (dbHashSetting hash)
  /\ dbHash (final first) = Some hash
  /\ count isNotificationsAdd (trace first) = 1
  /\ In (Called (NotificationsAdd (firstRunNotification w))) (trace first)
  /\ (fault w (NotificationsAdd (firstRunNotification w)) = None ->
      notifications (final first)
      = notifications st ++ [firstRunNotification w])
  /\ forall (w' : World) (st' : State) (stored : Setting.t),
       settings st' !! "dbHash" = Some stored ->
       fault w' (SettingsRead "dbHash") = None ->
       let second := run w' (initDbHashAndFirstRun w') st' in
       count isUuidV4 (trace second) = 0
       /\ count isNotificationsAdd (trace second) = 0
       /\ notifications (final second) = notifications st'
       /\ settings (final second) = settings st'
       /\ dbHash (final second) = Some (Setting.value stored)
       /\ settledAs second
          = Some (Fulfilled (Hash (Some (Setting.value stored)))).
Proof.
  intros Hfresh Hadd first hash.
  repeat match goal with |- _ /\ _ => split end.
  1-8: subst first hash; unfold_module; cbn; unfold settle;
    destruct (fault w (SettingsRead "dbHash")); cbn;
    rewrite ?(readSetting_absent st Hfresh); cbn;
    unfold settle; rewrite Hadd; cbn;
    unfold settle; destruct (fault w (NotificationsAdd _)); cbn;
    first [apply addSetting_stored | solve [auto 10] | discriminate].
  intros w' st' stored Hstored Hread second.
  subst second. unfold_module. cbn. unfold settle. rewrite Hread.
  rewrite (readSetting_stored st' _ Hstored). cbn. auto 10.
Qed.

Lemma first_run_then_reuse_witness :
  let first := run development (initDbHashAndFirstRun development) (boot ∅) in
  let second := run development (initDbHashAndFirstRun development)
                  (boot (settings (final first))) in
  count isNotificationsAdd (trace first) = 1
  /\ count isNotificationsAdd (trace second) = 0
  /\ dbHash (final second) = Some "110ec58a-a0f2-4ac4-8393-c866d813b8d1".
Proof.
  destruct (first_run_then_reuse development (boot ∅))
    as (_ & _ & _ & Hstored & _ & Hone & _ & _ & Hsecond).
  - reflexivity.
  - reflexivity.
  - destruct (Hsecond development
                (boot (settings (final (run development
                   (initDbHashAndFirstRun development) (boot ∅)))))
                (dbHashSetting "110ec58a-a0f2-4ac4-8393-c866d813b8d1"))
      as (_ & Hzero & _ & _ & Hhash & _).
    + exact Hstored.
    + reflexivity.
    + split; [exact Hone | split; [exact Hzero | exact Hhash]].
Defined.

(** ** The start-up sequence *)

Lemma after_after {R} (a b : list event) (r : Run R) :
  after a (after b r) = after (a ++ b) r.
Proof. unfold after. cbn. now rewrite app_assoc. Qed.

Lemma after_andThen {A B} (a : list event) (r : Run A)
    (k : outcome A -> State -> Run B) :
  after a (andThen r k) = andThen (after a r) k.
Proof.
  unfold andThen. cbn. destruct (settledAs r).
  - apply after_after.
  - reflexivity.
Qed.

(** A handler runs when, and only when, the promise it is attached to has
    settled; if the process ends first, nothing follows. *)
Lemma run_settled {A B} (w : World) (f : outcome A -> proc B) :
  forall (p : proc A) (st : State),
    run w (settled p f) st
    = andThen (run w p st) (fun o st' => run w (f o) st').
Proof.
  induction p as [o|a k IH|c k IH|c k IH]; intros st; cbn [settled run].
  - unfold andThen, after. cbn. now destruct (run w (f o) st).
  - destruct (act w a st) as [[evs st'] [x|]].
    + now rewrite IH, after_andThen.
    + reflexivity.
  - now rewrite IH, after_andThen.
  - destruct (settle w c st) as [o st'].
    now rewrite IH, after_andThen.
Qed.

Lemma setup_run (w : World) (st : State) :
  run w (setup w) st
  = after (Performed PolyglotInstance :: trace (run w (initialisation w) st))
      (conclusion w (run w (initialisation w) st)).
Proof.
  unfold setup, then2, perform, then_, resolve. cbn [settled run act].
  rewrite run_settled. unfold andThen, conclusion.
  destruct (settledAs (run w (initialisation w) st)) as [[[]|e]|].
  - now rewrite after_after.
  - now rewrite after_after.
  - unfold after. cbn [trace final settledAs app]. now rewrite app_nil_r.
Qed.

Lemma setup_trace (w : World) (st : State) :
  trace (run w (setup w) st)
  = Performed PolyglotInstance
    :: trace (run w (initialisation w) st)
       ++ trace (conclusion w (run w (initialisation w) st)).
Proof. now rewrite setup_run. Qed.

Lemma initialisation_settles (w : World) (st : State) :
  settledAs (run w (initialisation w) st) <> None.
Proof. explore; discriminate. Qed.

Lemma initialisation_events (w : World) (st : State) :
  Forall (fun e => isInitEvent e = true) (trace (run w (initialisation w) st)).
Proof. explore; repeat constructor. Qed.

Lemma configureAndStart_events (w : World) (st : State) :
  Forall (fun e => isInitEvent e = false)
    (trace (run w (configureAndStart w) st)).
Proof. explore; repeat constructor. Qed.

Lemma conclusion_events (w : World) (i : Run unit) :
  Forall (fun e => isInitEvent e = false) (trace (conclusion w i)).
Proof.
  unfold conclusion. destruct (settledAs i) as [[[]|e]|]; cbn.
  - apply configureAndStart_events.
  - repeat constructor.
  - constructor.
Qed.

(** A property of the events of the initialisation chain that holds in
    every run of the chain holds in every run of [setup]. *)
Lemma precedes_setup (P Q : event -> Prop) (w : World) (st : State) :
  (forall e, Q e -> isInitEvent e = true) ->
  ~ Q (Performed PolyglotInstance) ->
  precedes P Q (trace (run w (initialisation w) st)) ->
  precedes P Q (trace (run w (setup w) st)).
Proof.
  intros Hq Hn Hinit. rewrite setup_trace.
  apply precedes_skip; [exact Hn|].
  apply precedes_app; [exact Hinit|].
  intros e Hin HQ.
  pose proof (conclusion_events w (run w (initialisation w) st)) as Hlate.
  rewrite List.Forall_forall in Hlate.
  specialize (Hlate e Hin). rewrite (Hq e HQ) in Hlate. discriminate.
Qed.

Lemma nextIs_setup (P Q : event -> Prop) (w : World) (st : State) :
  (forall e, P e -> isInitEvent e = true) ->
  ~ P (Performed PolyglotInstance) ->
  nextIs P Q (trace (run w (initialisation w) st)) ->
  nextIs P Q (trace (run w (setup w) st)).
Proof.
  intros Hp Hn Hinit. rewrite setup_trace.
  apply nextIs_skip; [exact Hn|].
  apply nextIs_app; [exact Hinit|].
  intros e Hin HP.
  pose proof (conclusion_events w (run w (initialisation w) st)) as Hlate.
  rewrite List.Forall_forall in Hlate.
  specialize (Hlate e Hin). rewrite (Hp e HP) in Hlate. discriminate.
Qed.

(** The run under study, named, so that it is unfolded once. *)
Ltac on_run :=
  match goal with
  | |- context [run ?w ?p ?st] =>
      let r := fresh "r" in
      let Hr := fresh "Hr" in
      remember (run w p st) as r eqn:Hr; revert Hr; explore; intros ->; cbn
  end.

Ltac initEvent := let e := fresh in let H := fresh in intros e H; now subst e.

(** C6. In every start-up, model initialisation and path computation are
    started together, and both have completed before the default settings
    are populated; the dbHash resolution and the permissions initialisation
    are started together, only after the settings cache and the theme
    set-up have completed; mail initialisation starts only after both of
    those have completed. *)
Theorem startup_order (w : World) (st : State) :
  let t := trace (run w (setup w) st) in
  (exists rest,
     t = Performed PolyglotInstance :: Called ModelsInit
         :: Called (UpdatePaths (url (config w))) :: rest)
  /\ precedes (eq (Settled ModelsInit None)) (eq (Called PopulateDefaults)) t
  /\ precedes (eq (Settled (UpdatePaths (url (config w))) None))
       (eq (Called PopulateDefaults)) t
  /\ nextIs (eq (Called (SettingsRead "dbHash")))
       (eq (Called PermissionsInit)) t
  /\ precedes (eq (Settled ApiInit None))
       (eq (Called (SettingsRead "dbHash"))) t
  /\ precedes (eq (Settled ThemeUpdate None))
       (eq (Called (SettingsRead "dbHash"))) t
  /\ precedes (eq (Called (SettingsRead "dbHash")))
       (eq (Called PermissionsInit)) t
  /\ precedes (eq (Settled PermissionsInit None)) (eq (Called MailerInit)) t
  /\ precedes dbHashResolved (eq (Called MailerInit)) t.
Proof.
  cbv zeta. split.
  { rewrite setup_trace. on_run; eexists; reflexivity. }
  repeat match goal with |- _ /\ _ => split end.
  all: (apply precedes_setup || apply nextIs_setup);
    [initEvent | discriminate |].
  all: on_run.
  all: try solve [earlier]; try solve [atOnce].
  all: unfold dbHashResolved; earlier.
Qed.

(** ** Rejections *)

Lemma count_app (P : event -> bool) (t t' : list event) :
  count P (t ++ t') = count P t + count P t'.
Proof. unfold count. now rewrite List.filter_app, length_app. Qed.

Lemma count_none (P : event -> bool) (t : list event) :
  Forall (fun e => P e = false) t -> count P t = 0.
Proof.
  unfold count. induction 1 as [|e t He _ IH]; [reflexivity|].
  cbn. now rewrite He.
Qed.

Lemma initialisation_never_exits (w : World) (st : State) :
  count isLogErrorAndExit (trace (run w (initialisation w) st)) = 0.
Proof.
  apply count_none.
  eapply List.Forall_impl; [|apply initialisation_events].
  intros [c|c o|[]]; cbn; congruence.
Qed.

(** Which event of a concrete trace a hypothesis [In e t] speaks of. *)
Ltac whichEvent H :=
  repeat (destruct H as [H|H];
          [ try discriminate H;
            inversion H; subst;
            try discriminate
          | ]);
  try contradiction.

Lemma initialisation_rejection
    (w : World) (st : State) (c : request) (e : Error) :
  rejectsStage c = true ->
  In (Settled c (Some e)) (trace (run w (initialisation w) st)) ->
  endsWith [Settled c (Some e)] (trace (run w (initialisation w) st))
  /\ settledAs (run w (initialisation w) st) = Some (Rejected e).
Proof.
  intros Hc. on_run.
  all: intros Hin; whichEvent Hin.
  all: split; [atTheEnd | reflexivity].
Qed.

Lemma rejectsStage_init (c : request) :
  rejectsStage c = true -> isInitRequest c = true.
Proof. now destruct c. Qed.

(** C3, as the code has it.  A rejection of model initialisation, path
    computation, settings defaults, settings cache, theme update, dbHash
    resolution (the store refusing the new hash or the notification),
    permissions initialisation or mail initialisation reaches the terminal
    handler: [errors.logErrorAndExit] is the very next event, it receives
    that error, it is called once, and the process ends there, so no other
    handler runs.  (Plugin initialisation is not part of that chain.) *)
Theorem rejection_reaches_terminal_handler
    (w : World) (st : State) (c : request) (e : Error) :
  rejectsStage c = true ->
  In (Settled c (Some e)) (trace (run w (setup w) st)) ->
  endsWith [Settled c (Some e); Performed (LogErrorAndExit e)]
    (trace (run w (setup w) st))
  /\ count isLogErrorAndExit (trace (run w (setup w) st)) = 1
  /\ settledAs (run w (setup w) st) = None.
Proof.
  intros Hc Hin. rewrite setup_trace in Hin. rewrite setup_run.
  destruct Hin as [Hin|Hin]; [discriminate Hin|].
  apply in_app_or in Hin. destruct Hin as [Hin|Hin].
  - destruct (initialisation_rejection w st c e Hc Hin) as [[pre Hpre] Hrej].
    unfold conclusion. rewrite Hrej. cbn [after trace settledAs].
    split; [|split].
    + exists (Performed PolyglotInstance :: pre).
      rewrite Hpre. cbn. now rewrite <- app_assoc.
    + change (Performed PolyglotInstance
              :: trace (run w (initialisation w) st))
        with ([Performed PolyglotInstance]
              ++ trace (run w (initialisation w) st)).
      rewrite !count_app, initialisation_never_exits. reflexivity.
    + reflexivity.
  - pose proof (conclusion_events w (run w (initialisation w) st)) as Hlate.
    rewrite List.Forall_forall in Hlate. specialize (Hlate _ Hin).
    cbn in Hlate. rewrite (rejectsStage_init c Hc) in Hlate. discriminate.
Qed.

Ltac member := repeat first [ left; reflexivity | right ].

Lemma rejection_reaches_terminal_handler_witness :
  endsWith [Settled MailerInit (Some (Failure "mail"));
            Performed (LogErrorAndExit (Failure "mail"))]
    (trace (run brokenMail (setup brokenMail) (boot ∅)))
  /\ settledAs (run brokenMail (setup brokenMail) (boot ∅)) = None.
Proof.
  destruct (rejection_reaches_terminal_handler brokenMail (boot ∅)
              MailerInit (Failure "mail")) as (Hend & _ & Hexit).
  - reflexivity.
  - vm_compute. member.
  - split; [exact Hend | exact Hexit].
Defined.

(** C3 does not hold for plugin initialisation: its rejection is not passed
    to the terminal handler, nothing is logged and the process goes on,
    without a server. *)
Lemma plugin_rejection_not_handled :
  let r := run brokenPlugins (setup brokenPlugins) (boot ∅) in
  In (Settled PluginsInit (Some (Failure "plugin"))) (trace r)
  /\ count isLogErrorAndExit (trace r) = 0
  /\ settledAs r = Some (Fulfilled tt).
Proof.
  cbv zeta. split; [vm_compute; member | split; reflexivity].
Qed.

(** ** Starting the server *)

Lemma run_listeners {R} (w : World) :
  forall (p : proc R) (st : State),
    listeners (final (run w p st))
    = listeners st ++ registered (trace (run w p st)).
Proof.
  induction p as [o|a k IH|c k IH|c k IH]; intros st; cbn [run].
  - cbn. now rewrite app_nil_r.
  - pose proof (act_listeners w a st) as Ha.
    destruct (act w a st) as [[evs st'] [x|]]; cbn in Ha |- *.
    + now rewrite IH, Ha, registered_app, app_assoc.
    + exact Ha.
  - cbn. apply IH.
  - pose proof (settle_listeners w c st) as Hs.
    destruct (settle w c st) as [o st']; cbn in Hs |- *.
    now rewrite IH, Hs.
Qed.

Lemma initialisation_listeners (w : World) (st : State) :
  listeners (final (run w (initialisation w) st)) = listeners st.
Proof.
  rewrite run_listeners, registered_none; [apply app_nil_r|].
  intros sig h Hin.
  pose proof (initialisation_events w st) as Hev.
  rewrite List.Forall_forall in Hev. specialize (Hev _ Hin). discriminate.
Qed.

(** The events before the last handler are none of its events. *)
Lemma before_start (w : World) (st : State) (e : event) :
  In e (Performed PolyglotInstance :: trace (run w (initialisation w) st)) ->
  isStartEvent e = false.
Proof.
  intros [<-|Hin]; [reflexivity|].
  pose proof (initialisation_events w st) as Hev.
  rewrite List.Forall_forall in Hev. specialize (Hev _ Hin).
  destruct e as [c|c o|[]]; cbn in Hev |- *;
    try discriminate; try reflexivity; now rewrite Hev.
Qed.

(** A start event of a run of [setup] is an event of the last fulfilment
    handler, which ran in a state with the listeners of the beginning. *)
Lemma start_event (w : World) (st : State) (e : event) :
  isStartEvent e = true ->
  In e (trace (run w (setup w) st)) ->
  exists st',
    listeners st' = listeners st
    /\ run w (setup w) st
       = after (Performed PolyglotInstance
                :: trace (run w (initialisation w) st))
           (run w (configureAndStart w) st')
    /\ In e (trace (run w (configureAndStart w) st')).
Proof.
  intros He Hin. rewrite setup_run in Hin |- *.
  unfold after in Hin. cbn [trace] in Hin.
  apply in_app_or in Hin. destruct Hin as [Hin|Hin].
  - apply before_start in Hin. congruence.
  - exists (final (run w (initialisation w) st)).
    split; [apply initialisation_listeners|].
    unfold conclusion in Hin |- *.
    destruct (settledAs (run w (initialisation w) st)) as [[[]|e0]|].
    + split; [reflexivity | exact Hin].
    + destruct Hin as [<-|[]]. discriminate He.
    + destruct Hin.
Qed.

Lemma precedes_start (P Q : event -> Prop) (w : World) (st : State) :
  (forall e, Q e -> isStartEvent e = true) ->
  (forall st', precedes P Q (trace (run w (configureAndStart w) st'))) ->
  precedes P Q (trace (run w (setup w) st)).
Proof.
  intros Hq Hstart. rewrite setup_run. unfold after. cbn [trace].
  apply precedes_app_r.
  - intros e Hin HQ. apply before_start in Hin.
    rewrite (Hq e HQ) in Hin. discriminate.
  - unfold conclusion.
    destruct (settledAs (run w (initialisation w) st)) as [[[]|e0]|].
    + apply Hstart.
    + apply precedes_skip; [|apply precedes_nil].
      intros HQ. apply Hq in HQ. discriminate.
    + apply precedes_nil.
Qed.

Lemma nextIs_start (P Q : event -> Prop) (w : World) (st : State) :
  (forall e, P e -> isStartEvent e = true) ->
  (forall st', nextIs P Q (trace (run w (configureAndStart w) st'))) ->
  nextIs P Q (trace (run w (setup w) st)).
Proof.
  intros Hp Hstart. rewrite setup_run. unfold after. cbn [trace].
  apply nextIs_app_r.
  - intros e Hin HP. apply before_start in Hin.
    rewrite (Hp e HP) in Hin. discriminate.
  - unfold conclusion.
    destruct (settledAs (run w (initialisation w) st)) as [[[]|e0]|].
    + apply Hstart.
    + apply nextIs_skip; [|apply nextIs_nil].
      intros HP. apply Hp in HP. discriminate.
    + apply nextIs_nil.
Qed.

(** [server.listen] is called once at most. *)
Lemma setup_listens_once (w : World) (st : State) :
  count isServerListen (trace (run w (setup w) st)) <= 1.
Proof.
  rewrite setup_trace.
  change (Performed PolyglotInstance
          :: trace (run w (initialisation w) st)
             ++ trace (conclusion w (run w (initialisation w) st)))
    with ([Performed PolyglotInstance]
          ++ trace (run w (initialisation w) st)
             ++ trace (conclusion w (run w (initialisation w) st))).
  rewrite !count_app.
  rewrite (count_none isServerListen
             (trace (run w (initialisation w) st))).
  - unfold conclusion.
    generalize (final (run w (initialisation w) st)). intros st'.
    destruct (settledAs (run w (initialisation w) st)) as [[[]|e0]|];
      [on_run | |]; cbn; lia.
  - eapply List.Forall_impl; [|apply initialisation_events].
    intros [c|c o|a]; cbn; try reflexivity. destruct c; cbn; congruence.
Qed.

(** C7. In socket mode ([getSocket()] is truthy), whenever the server is
    asked to listen, it is asked to listen on the resolved socket path and
    nothing else; [fs.unlink] has been called on that same path and has
    called back before that; and [fs.chmod] sets the mode of that path to
    '0744' right after the call. *)
Theorem socket_unlinked_before_listen (w : World) (st : State) :
  truthy (getSocket w) = true ->
  let t := trace (run w (setup w) st) in
  (forall args, In (Called (ServerListen args)) t -> args = [getSocket w])
  /\ precedes (eq (Called (FsUnlink (getSocket w))))
       (eq (Called (ServerListen [getSocket w]))) t
  /\ precedes (fun e => exists err, e = Settled (FsUnlink (getSocket w)) err)
       (eq (Called (ServerListen [getSocket w]))) t
  /\ nextIs (eq (Called (ServerListen [getSocket w])))
       (eq (Performed (FsChmod (getSocket w) "0744"))) t
  /\ count isServerListen t <= 1.
Proof.
  intros Hsocket. cbv zeta. split; [|split; [|split; [|split]]].
  - intros args Hin.
    destruct (start_event w st (Called (ServerListen args)) eq_refl Hin)
      as (st' & _ & _ & Hin').
    revert Hin'. on_run; try congruence.
    all: intros Hin'; whichEvent Hin'; reflexivity.
  - apply precedes_start; [intros e <-; reflexivity|].
    intros st'. on_run; try congruence. all: earlier.
  - apply precedes_start; [intros e <-; reflexivity|].
    intros st'. on_run; try congruence. all: earlier.
  - apply nextIs_start; [intros e <-; reflexivity|].
    intros st'. on_run; try congruence. all: atOnce.
  - apply setup_listens_once.
Qed.

Lemma socket_unlinked_before_listen_witness :
  In (Called (ServerListen [JString "/tmp/ghost.sock"]))
    (trace (run onSocket (setup onSocket) (boot ∅)))
  /\ precedes (eq (Called (FsUnlink (JString "/tmp/ghost.sock"))))
       (eq (Called (ServerListen [JString "/tmp/ghost.sock"])))
       (trace (run onSocket (setup onSocket) (boot ∅))).
Proof.
  split; [vm_compute; member|].
  destruct (socket_unlinked_before_listen onSocket (boot ∅))
    as (_ & Hunlink & _).
  - reflexivity.
  - exact Hunlink.
Defined.

(** ** Interrupts *)

Lemma Math_round_nonneg (x : Q) : (0 <= x)%Q -> (0 <= Math_round x)%Z.
Proof.
  intros Hx. unfold Math_round.
  change 0%Z with (Qfloor 0). apply Qfloor_resp_le.
  apply Qle_trans with x; [exact Hx|].
  rewrite <- (Qplus_0_r x) at 1. apply Qplus_le_r. discriminate.
Qed.

Lemma configureAndStart_listener
    (w : World) (st : State) (args : list JsValue) :
  In (Settled (ServerListen args) None)
    (trace (run w (configureAndStart w) st)) ->
  settledAs (run w (configureAndStart w) st) = Some (Fulfilled tt) ->
  registered (trace (run w (configureAndStart w) st))
  = [("SIGINT",
      if isProduction w then ShutdownProduction else ShutdownOther)].
Proof.
  on_run.
  all: intros Hin; whichEvent Hin.
  all: intros Halive; try discriminate Halive; reflexivity.
Qed.

(** C8. Once start-up has succeeded, an interrupt makes the process log a
    shutdown message and exit with code 0; outside production the message
    holds the uptime in seconds rounded to a whole number, which is not
    negative. *)
Theorem sigint_shuts_down (w : World) (st : State) :
  listeners st = [] ->
  startedUp (run w (setup w) st) ->
  let shutdown := deliver w "SIGINT" (final (run w (setup w) st)) in
  exists message,
    trace shutdown = [Performed (ConsoleLog message);
                      Performed (ProcessExit 0)]
    /\ settledAs shutdown = None
    /\ (isProduction w = true ->
        message = [Coloured red (nl +:+ "Ghost has shut down");
                   Plain (nl +:+ "Your blog is now offline")])
    /\ (isProduction w = false ->
        message = [Coloured red (nl +:+ "Ghost has shutdown");
                   Plain (nl +:+ "Ghost was running for");
                   Value (JNumber (Math_round (uptime w)));
                   Plain "seconds"]
        /\ ((0 <= uptime w)%Q -> (0 <= Math_round (uptime w))%Z)).
Proof.
  intros Hnone [[args Hin] Halive]. cbv zeta. unfold deliver.
  destruct (start_event w st (Settled (ServerListen args) None) eq_refl Hin)
    as (st' & Hst' & Hrun & Hin').
  rewrite Hrun in Halive |- *. cbn [after final settledAs] in Halive |- *.
  rewrite run_listeners, Hst', Hnone.
  rewrite (configureAndStart_listener w st' args Hin' Halive).
  generalize (final (run w (configureAndStart w) st')). intros s.
  destruct (isProduction w); cbn;
    (eexists; split; [reflexivity|]); (split; [reflexivity|]);
    split; intros Henv; try discriminate Henv.
  - reflexivity.
  - split; [reflexivity | apply Math_round_nonneg].
Qed.

Lemma sigint_shuts_down_witness :
  trace (deliver development "SIGINT"
           (final (run development (setup development) (boot ∅))))
  = [Performed (ConsoleLog [Coloured red (nl +:+ "Ghost has shutdown");
                            Plain (nl +:+ "Ghost was running for");
                            Value (JNumber 4);
                            Plain "seconds"]);
     Performed (ProcessExit 0)]
  /\ (0 <= Math_round (uptime development))%Z.
Proof.
  destruct (sigint_shuts_down development (boot ∅))
    as (message & Htrace & _ & _ & Hother).
  - reflexivity.
  - split; [exists [JString "2368"; JString "127.0.0.1"]; vm_compute; member
           | reflexivity].
  - destruct (Hother eq_refl) as [-> Hround].
    split; [exact Htrace | apply Hround; discriminate].
Defined.

(** The interrupt listeners are registered by [startGhost] alone. *)
Lemma configureAndStart_registers (w : World) (st : State) :
  precedes (fun e => exists args, e = Settled (ServerListen args) None)
    (fun e => exists sig h, e = Performed (ProcessOn sig h))
    (trace (run w (configureAndStart w) st))
  /\ forall sig h,
       In (Performed (ProcessOn sig h))
         (trace (run w (configureAndStart w) st)) ->
       sig = "SIGINT"
       /\ satisfies w (nodeVersion w) (enginesNode w) = true.
Proof.
  split.
  - on_run. all: earlier.
  - intros sig h. on_run.
    all: intros Hin; whichEvent Hin; split; reflexivity || assumption.
Qed.

Lemma sigint_registration (w : World) (st : State) :
  precedes (fun e => exists args, e = Settled (ServerListen args) None)
    (fun e => exists sig h, e = Performed (ProcessOn sig h))
    (trace (run w (setup w) st))
  /\ (forall sig h, In (Performed (ProcessOn sig h))
                      (trace (run w (setup w) st)) ->
       sig = "SIGINT"
       /\ satisfies w (nodeVersion w) (enginesNode w) = true).
Proof.
  split.
  - apply precedes_start.
    + intros e (sig & h & ->). reflexivity.
    + intros st'. apply configureAndStart_registers.
  - intros sig h Hin.
    destruct (start_event w st (Performed (ProcessOn sig h)) eq_refl Hin)
      as (st' & _ & _ & Hin').
    exact (proj2 (configureAndStart_registers w st') sig h Hin').
Qed.

(** C10. A listener for the interrupt signal is registered by [startGhost]
    only, that is in the callback of [server.listen] and once the version
    check has passed: in every run, a registration comes after the server
    has started listening.  At any earlier moment of the start-up the
    listeners of the process are those it had before, so an interrupt
    received then is not handled by this module. *)
Theorem sigint_listener_after_listen (w : World) (st : State) (n : nat) :
  let t := trace (run w (setup w) st) in
  precedes (fun e => exists args, e = Settled (ServerListen args) None)
    (fun e => exists sig h, e = Performed (ProcessOn sig h)) t
  /\ (forall sig h, In (Performed (ProcessOn sig h)) t ->
       sig = "SIGINT"
       /\ satisfies w (nodeVersion w) (enginesNode w) = true)
  /\ let (sofar, now) := runFor n w (setup w) st in
     (forall args, ~ In (Settled (ServerListen args) None) sofar) ->
     listeners now = listeners st
     /\ (listeners st = [] -> trace (deliver w "SIGINT" now) = []).
Proof.
  cbv zeta.
  destruct (sigint_registration w st) as [Hbefore Hsigint].
  split; [exact Hbefore | split; [exact Hsigint|]].
  - pose proof (runFor_listeners n w (setup w) st) as Hlisteners.
    destruct (runFor_prefix n w (setup w) st) as [rest Hrest].
    destruct (runFor n w (setup w) st) as [sofar now].
    cbn [fst snd] in Hlisteners, Hrest.
    intros Hnot. rewrite Hrest in Hbefore.
    assert (Hnone : registered sofar = []).
    { apply registered_none. intros sig h Hin.
      apply (precedes_prefix _ _ _ _ Hbefore) with
        (e := Performed (ProcessOn sig h)).
      - intros e He [args ->]. exact (Hnot args He).
      - exact Hin.
      - now exists sig, h. }
    rewrite Hnone, app_nil_r in Hlisteners.
    split; [exact Hlisteners|].
    intros Hempty. unfold deliver. rewrite Hlisteners, Hempty. reflexivity.
Qed.

Lemma sigint_listener_after_listen_witness :
  listeners (snd (runFor 30 development (setup development) (boot ∅))) = []
  /\ trace (deliver development "SIGINT"
             (snd (runFor 30 development (setup development) (boot ∅))))
     = [].
Proof.
  destruct (sigint_listener_after_listen development (boot ∅) 30)
    as (_ & _ & Hearly).
  destruct (runFor 30 development (setup development) (boot ∅))
    as [sofar now] eqn:Hrun.
  assert (Hsofar : forall args, ~ In (Settled (ServerListen args) None) sofar).
  { intros args Hin. vm_compute in Hrun. injection Hrun as <- _.
    whichEvent Hin. }
  destruct (Hearly Hsofar) as [Hsame Hsilent].
  split; [exact Hsame | exact (Hsilent eq_refl)].
Defined.

(** ** The version guard *)

(** C2 does not hold in full: on an unsupported version the diagnostic is
    printed and the process exits with code 0, but [server.listen] has been
    called, and has called back, before that. *)
Lemma listen_called_on_unsupported_version :
  let r := run onOldNode (setup onOldNode) (boot ∅) in
  satisfies onOldNode (nodeVersion onOldNode) (enginesNode onOldNode) = false
  /\ In (Performed (ConsoleLog (unsupportedVersion onOldNode))) (trace r)
  /\ In (Performed (ProcessExit 0)) (trace r)
  /\ In (Called (ServerListen [JString "2368"; JString "127.0.0.1"]))
       (trace r).
Proof.
  cbv zeta. split; [reflexivity|].
  repeat split; vm_compute; member.
Qed.

Lemma configureAndStart_unsupported
    (w : World) (st : State) (args : list JsValue) :
  satisfies w (nodeVersion w) (enginesNode w) = false ->
  In (Settled (ServerListen args) None)
    (trace (run w (configureAndStart w) st)) ->
  endsWith [Settled (ServerListen args) None;
            Performed (ConsoleLog (unsupportedVersion w));
            Performed (ProcessExit 0)]
    (trace (run w (configureAndStart w) st))
  /\ settledAs (run w (configureAndStart w) st) = None.
Proof.
  intros Hold. on_run; try congruence.
  all: intros Hin; whichEvent Hin.
  all: split; [atTheEnd | reflexivity].
Qed.

Lemma configureAndStart_check_after_listen (w : World) (st : State) :
  precedes (fun e => exists args, e = Called (ServerListen args))
    (eq (Performed (ConsoleLog (unsupportedVersion w))))
    (trace (run w (configureAndStart w) st)).
Proof. on_run. all: earlier. Qed.

(** C2, as the code has it.  When the server has started listening on a
    version of Node that does not satisfy the supported range, the process
    prints the diagnostic and exits with code 0 at once: these are the last
    two events, and no interrupt listener is registered.  The version is
    checked in the callback of [server.listen], so the diagnostic comes
    after the call of [server.listen], which is called once at most. *)
Theorem unsupported_version_exits (w : World) (st : State) :
  satisfies w (nodeVersion w) (enginesNode w) = false ->
  let r := run w (setup w) st in
  (forall args, In (Settled (ServerListen args) None) (trace r) ->
     endsWith [Settled (ServerListen args) None;
               Performed (ConsoleLog (unsupportedVersion w));
               Performed (ProcessExit 0)] (trace r)
     /\ settledAs r = None)
  /\ precedes (fun e => exists args, e = Called (ServerListen args))
       (eq (Performed (ConsoleLog (unsupportedVersion w)))) (trace r)
  /\ count isServerListen (trace r) <= 1
  /\ (forall sig h, ~ In (Performed (ProcessOn sig h)) (trace r))
  /\ listeners (final r) = listeners st.
Proof.
  intros Hold. cbv zeta.
  assert (Hnone : forall sig h,
            ~ In (Performed (ProcessOn sig h)) (trace (run w (setup w) st))).
  { intros sig h Hin.
    destruct (proj2 (sigint_registration w st) sig h Hin) as [_ Hok].
    congruence. }
  split; [|split; [|split; [|split]]].
  - intros args Hin.
    destruct (start_event w st (Settled (ServerListen args) None) eq_refl Hin)
      as (st' & _ & Hrun & Hin').
    destruct (configureAndStart_unsupported w st' args Hold Hin')
      as [Hend Hexit].
    rewrite Hrun. cbn [after trace settledAs].
    split; [|exact Hexit].
    now apply endsWith_app with
      (t1 := Performed PolyglotInstance
             :: trace (run w (initialisation w) st)).
  - apply precedes_start.
    + intros e <-. reflexivity.
    + intros st'. apply configureAndStart_check_after_listen.
  - apply setup_listens_once.
  - exact Hnone.
  - rewrite run_listeners, registered_none; [apply app_nil_r | exact Hnone].
Qed.

Lemma unsupported_version_exits_witness :
  endsWith [Settled (ServerListen [JString "2368"; JString "127.0.0.1"]) None;
            Performed (ConsoleLog (unsupportedVersion onOldNode));
            Performed (ProcessExit 0)]
    (trace (run onOldNode (setup onOldNode) (boot ∅)))
  /\ settledAs (run onOldNode (setup onOldNode) (boot ∅)) = None.
Proof.
  destruct (unsupported_version_exits onOldNode (boot ∅)) as (Hexit & _).
  - reflexivity.
  - apply (Hexit [JString "2368"; JString "127.0.0.1"]).
    vm_compute. member.
Defined.

(** * Further properties of the module *)

(** ** The installation hash, continued *)

Lemma settings_setDbHash (v : string) (st : State) :
  settings (setDbHash v st) = settings st.
Proof. reflexivity. Qed.

Lemma settings_setDrawn (n : nat) (st : State) :
  settings (setDrawn n st) = settings st.
Proof. reflexivity. Qed.

Lemma settings_addNotification (n : Notification.t) (st : State) :
  settings (addNotification n st) = settings st.
Proof. reflexivity. Qed.

Lemma addSetting_other (hash k : string) (st : State) :
  k <> "dbHash" ->
  settings (addSetting (dbHashSetting hash) st) !! k = settings st !! k.
Proof.
  intros Hk. unfold addSetting. cbn.
  apply lookup_insert_ne. congruence.
Qed.

Lemma readSetting_fulfilled (k : string) (st : State) (m : SettingModel) :
  readSetting k st = Fulfilled m -> settings st !! k = Some (attributes m).
Proof.
  unfold readSetting. destruct (settings st !! k) as [s|]; [|discriminate].
  intros H. injection H as <-. reflexivity.
Qed.

(** X5. When the promise of [initDbHashAndFirstRun] is fulfilled, a hash is
    stored under 'dbHash' and the module variable [dbHash] holds the value
    of that stored record, whichever branch was taken. *)
Theorem fulfilled_hash_is_stored (w : World) (st : State) (v : Resolution) :
  settledAs (run w (initDbHashAndFirstRun w) st) = Some (Fulfilled v) ->
  exists s,
    settings (final (run w (initDbHashAndFirstRun w) st)) !! "dbHash" = Some s
    /\ dbHash (final (run w (initDbHashAndFirstRun w) st))
       = Some (Setting.value s)
    /\ (v = Hash (Some (Setting.value s)) \/ v = Added tt).
Proof.
  on_run; intros Hv; try discriminate Hv; injection Hv as <-.
  - eexists. split; [apply addSetting_stored|]. split; [reflexivity|].
    now right.
  - match goal with H : readSetting _ _ = Fulfilled ?m |- _ =>
      exists (attributes m); split; [exact (readSetting_fulfilled _ _ _ H)|]
    end.
    split; [reflexivity | now left].
  - eexists. split; [apply addSetting_stored|]. split; [reflexivity|].
    now right.
Qed.

Lemma fulfilled_hash_is_stored_witness :
  exists s,
    settings (final (run development (initDbHashAndFirstRun development)
                       (boot ∅))) !! "dbHash" = Some s
    /\ dbHash (final (run development (initDbHashAndFirstRun development)
                        (boot ∅))) = Some (Setting.value s).
Proof.
  destruct (fulfilled_hash_is_stored development (boot ∅) (Added tt))
    as (s & Hs & Hv & _).
  - reflexivity.
  - exists s. split; [exact Hs | exact Hv].
Defined.

(** X6. Whatever the world answers, [initDbHashAndFirstRun] reads no
    setting but 'dbHash' and adds none but the record of key 'dbHash' and
    type 'core' that holds the hash it has just drawn; it draws one hash at
    most, adds one record at most and creates one notification at most,
    and a notification only once the store has accepted the hash; the
    settings under other keys stay as they were. *)
Theorem resolver_footprint (w : World) (st : State) :
  let r := run w (initDbHashAndFirstRun w) st in
  (forall k, In (Called (SettingsRead k)) (trace r) -> k = "dbHash")
  /\ (forall s, In (Called (SettingsAdd s)) (trace r) ->
      s = dbHashSetting (uuid w (drawn st)))
  /\ (forall n, In (Called (NotificationsAdd n)) (trace r) ->
      n = firstRunNotification w)
  /\ count isUuidV4 (trace r) <= 1
  /\ count isSettingsAdd (trace r) <= 1
  /\ count isNotificationsAdd (trace r) <= 1
  /\ precedes (fun e => exists s, e = Settled (SettingsAdd s) None)
       (fun e => exists n, e = Called (NotificationsAdd n)) (trace r)
  /\ (forall k, k <> "dbHash" ->
      settings (final r) !! k = settings st !! k).
Proof.
  cbv zeta. on_run.
  all: repeat match goal with |- _ /\ _ => split end.
  all: try (cbn; lia).
  all: try solve [earlier].
  all: try solve [intros x Hin; whichEvent Hin; reflexivity].
  all: intros k Hk;
    rewrite ?settings_addNotification, ?settings_setDbHash;
    rewrite ?(addSetting_other _ k _ Hk); reflexivity.
Qed.

Lemma reboot_settings (st : State) : settings (reboot st) = settings st.
Proof. reflexivity. Qed.

Lemma stored_hash_is_read (w : World) (st : State) (s : Setting.t) :
  settings st !! "dbHash" = Some s ->
  fault w (SettingsRead "dbHash") = None ->
  let r := run w (initDbHashAndFirstRun w) st in
  settings (final r) = settings st
  /\ notifications (final r) = notifications st
  /\ drawn (final r) = drawn st
  /\ dbHash (final r) = Some (Setting.value s).
Proof.
  intros Hs Hread. cbv zeta. unfold_module. cbn. unfold settle.
  rewrite Hread, (readSetting_stored st s Hs). cbn. auto.
Qed.

(** X8. An installation that has its hash keeps it: however often it is
    started again, as long as the read of 'dbHash' is fulfilled at each
    start, the settings, the notifications and the number of hashes drawn
    stay as they were, and after each start [dbHash] is the stored value. *)
Theorem hash_survives_restarts
    (ws : list World) (st : State) (s : Setting.t) :
  settings st !! "dbHash" = Some s ->
  Forall (fun w => fault w (SettingsRead "dbHash") = None) ws ->
  settings (restarts ws st) = settings st
  /\ notifications (restarts ws st) = notifications st
  /\ drawn (restarts ws st) = drawn st
  /\ (ws <> [] -> dbHash (restarts ws st) = Some (Setting.value s)).
Proof.
  intros Hs Hws. revert st Hs.
  induction Hws as [|w ws Hw _ IH]; intros st Hs.
  - cbn. repeat split. congruence.
  - cbn [restarts].
    destruct (stored_hash_is_read w (reboot st) s Hs Hw)
      as (Hset & Hnot & Hdrawn & Hhash).
    destruct (IH (final (run w (initDbHashAndFirstRun w) (reboot st))))
      as (IHset & IHnot & IHdrawn & IHhash).
    { now rewrite Hset. }
    rewrite IHset, IHnot, IHdrawn, Hset, Hnot, Hdrawn.
    repeat split. intros _.
    destruct ws as [|w' ws']; [exact Hhash | apply IHhash; discriminate].
Qed.

Lemma hash_survives_restarts_witness :
  let installed := final (run development (setup development) (boot ∅)) in
  dbHash (restarts [development; onSocket; development] installed)
  = Some "110ec58a-a0f2-4ac4-8393-c866d813b8d1"
  /\ notifications (restarts [development; onSocket; development] installed)
     = [firstRunNotification development].
Proof.
  cbv zeta.
  destruct (hash_survives_restarts [development; onSocket; development]
              (final (run development (setup development) (boot ∅)))
              (dbHashSetting "110ec58a-a0f2-4ac4-8393-c866d813b8d1"))
    as (_ & Hnot & _ & Hhash).
  - reflexivity.
  - repeat constructor.
  - split; [apply Hhash; discriminate | rewrite Hnot; reflexivity].
Defined.

(** ** The last handler of the chain *)

(** A start event of a run of [setup] shows that the initialisation chain
    was fulfilled; the last handler then ran in the state the chain left. *)
Lemma start_event_state (w : World) (st : State) (e : event) :
  isStartEvent e = true ->
  In e (trace (run w (setup w) st)) ->
  settledAs (run w (initialisation w) st) = Some (Fulfilled tt)
  /\ run w (setup w) st
     = after (Performed PolyglotInstance
              :: trace (run w (initialisation w) st))
         (run w (configureAndStart w)
            (final (run w (initialisation w) st)))
  /\ In e (trace (run w (configureAndStart w)
                    (final (run w (initialisation w) st)))).
Proof.
  intros He Hin. rewrite setup_run in Hin |- *.
  unfold after in Hin. cbn [trace] in Hin.
  apply in_app_or in Hin. destruct Hin as [Hin|Hin].
  - apply before_start in Hin. congruence.
  - unfold conclusion in Hin |- *.
    destruct (settledAs (run w (initialisation w) st)) as [[[]|e0]|].
    + repeat split. exact Hin.
    + destruct Hin as [<-|[]]. discriminate He.
    + destruct Hin.
Qed.

Lemma initialisation_hash (w : World) (st : State) :
  settledAs (run w (initialisation w) st) = Some (Fulfilled tt) ->
  exists s,
    settings (final (run w (initialisation w) st)) !! "dbHash" = Some s
    /\ dbHash (final (run w (initialisation w) st)) = Some (Setting.value s).
Proof.
  on_run; intros Hv; try discriminate Hv.
  all: first
    [ eexists; split; [apply addSetting_stored | reflexivity]
    | match goal with H : readSetting _ _ = Fulfilled ?m |- _ =>
        exists (attributes m);
        split; [exact (readSetting_fulfilled _ _ _ H) | reflexivity]
      end ].
Qed.

Lemma configureAndStart_secret
    (w : World) (st : State) (secret : option string) :
  In (Performed (Middleware secret))
    (trace (run w (configureAndStart w) st)) ->
  secret = dbHash st.
Proof. on_run. all: intros Hin; whichEvent Hin; reflexivity. Qed.

Lemma configureAndStart_settings (w : World) (st : State) :
  settings (final (run w (configureAndStart w) st)) = settings st.
Proof. on_run; reflexivity. Qed.

(** X3. The secret that [middleware] is given is the hash of the
    installation: whenever [middleware(server, dbHash)] is called, a record
    is stored under 'dbHash' and the argument is the value of that record,
    never [undefined]. *)
Theorem middleware_secret_is_stored_hash
    (w : World) (st : State) (secret : option string) :
  In (Performed (Middleware secret)) (trace (run w (setup w) st)) ->
  exists s,
    settings (final (run w (setup w) st)) !! "dbHash" = Some s
    /\ secret = Some (Setting.value s).
Proof.
  intros Hin.
  destruct (start_event_state w st (Performed (Middleware secret))
              eq_refl Hin) as (Hok & Hrun & Hin').
  destruct (initialisation_hash w st Hok) as (s & Hs & Hhash).
  exists s. rewrite Hrun. cbn [after final].
  rewrite configureAndStart_settings.
  split; [exact Hs|].
  rewrite (configureAndStart_secret _ _ _ Hin'). exact Hhash.
Qed.

Lemma middleware_secret_is_stored_hash_witness :
  exists s,
    settings (final (run development (setup development) (boot ∅)))
      !! "dbHash" = Some s
    /\ Some "110ec58a-a0f2-4ac4-8393-c866d813b8d1" = Some (Setting.value s).
Proof.
  apply (middleware_secret_is_stored_hash development (boot ∅)).
  vm_compute. member.
Defined.

(** X7. Fail fast: once a stage of the initialisation chain is rejected,
    nothing of the last handler happens: no view engine, no middleware, no
    routes, no plugins, no socket, no [server.listen], no console output and
    no signal listener. *)
Theorem rejected_stage_starts_nothing
    (w : World) (st : State) (c : request) (e : Error) :
  rejectsStage c = true ->
  In (Settled c (Some e)) (trace (run w (setup w) st)) ->
  forall ev, In ev (trace (run w (setup w) st)) -> isStartEvent ev = false.
Proof.
  intros Hc Hin ev Hev.
  destruct (isStartEvent ev) eqn:Hstart; [|reflexivity].
  destruct (start_event_state w st ev Hstart Hev) as (Hok & _ & _).
  rewrite setup_trace in Hin.
  destruct Hin as [Hin|Hin]; [discriminate Hin|].
  apply in_app_or in Hin. destruct Hin as [Hin|Hin].
  - destruct (initialisation_rejection w st c e Hc Hin) as [_ Hrej].
    congruence.
  - pose proof (conclusion_events w (run w (initialisation w) st)) as Hlate.
    rewrite List.Forall_forall in Hlate. specialize (Hlate _ Hin).
    cbn in Hlate. rewrite (rejectsStage_init c Hc) in Hlate. discriminate.
Qed.

Lemma rejected_stage_starts_nothing_witness :
  In (Performed (LogErrorAndExit (Failure "mail")))
    (trace (run brokenMail (setup brokenMail) (boot ∅)))
  /\ isStartEvent (Performed (LogErrorAndExit (Failure "mail"))) = false.
Proof.
  assert (Hin : In (Performed (LogErrorAndExit (Failure "mail")))
                  (trace (run brokenMail (setup brokenMail) (boot ∅)))).
  { vm_compute. member. }
  split; [exact Hin|].
  apply (rejected_stage_starts_nothing brokenMail (boot ∅)
           MailerInit (Failure "mail")).
  - reflexivity.
  - vm_compute. member.
  - exact Hin.
Defined.

Lemma precedes_across
    (P Q : event -> Prop) (t1 t2 : list event) (e' : event) :
  In e' t1 -> P e' -> (forall e, In e t1 -> ~ Q e) ->
  precedes P Q (t1 ++ t2).
Proof.
  intros Hin Hp Hno l1 e l2 H Hq.
  destruct (app_eq_app _ _ _ _ H) as [l [[-> Hl]|[-> Hl]]].
  - destruct l as [|x l]; cbn in Hl.
    + exists e'. split; [now rewrite app_nil_r in Hin | exact Hp].
    + injection Hl as <- _. exfalso. apply (Hno e); [|exact Hq].
      apply in_or_app. right. now left.
  - exists e'. split; [|exact Hp]. apply in_or_app. now left.
Qed.

Lemma initialisation_ends_with_mail (w : World) (st : State) :
  settledAs (run w (initialisation w) st) = Some (Fulfilled tt) ->
  In (Settled MailerInit None) (trace (run w (initialisation w) st)).
Proof. on_run; intros Hv; try discriminate Hv; member. Qed.

(** Whatever the last handler does comes after the mail set-up. *)
Lemma mail_before_start (Q : event -> Prop) (w : World) (st : State) :
  (forall e, Q e -> isStartEvent e = true) ->
  precedes (eq (Settled MailerInit None)) Q (trace (run w (setup w) st)).
Proof.
  intros Hq. rewrite setup_trace.
  destruct (settledAs (run w (initialisation w) st)) as [[[]|e0]|] eqn:Hi.
  - change (Performed PolyglotInstance
            :: trace (run w (initialisation w) st)
               ++ trace (conclusion w (run w (initialisation w) st)))
      with ((Performed PolyglotInstance
             :: trace (run w (initialisation w) st))
            ++ trace (conclusion w (run w (initialisation w) st))).
    apply precedes_across with (e' := Settled MailerInit None).
    + right. now apply initialisation_ends_with_mail.
    + reflexivity.
    + intros e Hin HQ. apply before_start in Hin.
      rewrite (Hq e HQ) in Hin. discriminate.
  - intros l1 e l2 H HQ. exfalso.
    assert (Hin : In e (Performed PolyglotInstance
                        :: trace (run w (initialisation w) st)
                           ++ trace (conclusion w
                                       (run w (initialisation w) st)))).
    { rewrite H. apply in_or_app. right. now left. }
    unfold conclusion in Hin. rewrite Hi in Hin. cbn [trace] in Hin.
    pose proof (Hq e HQ) as Hstart.
    destruct Hin as [<-|Hin]; [discriminate Hstart|].
    apply in_app_or in Hin. destruct Hin as [Hin|[<-|[]]].
    + assert (Hb : isStartEvent e = false).
      { apply (before_start w st). now right. }
      congruence.
    + discriminate Hstart.
  - exfalso. now apply (initialisation_settles w st).
Qed.

(** X4. The last handler configures the server in a fixed order, and only
    after the mail set-up has completed: the view engines are set before the
    middleware, the middleware before the API routes, those before the admin
    routes, those before the frontend routes, and plugins are initialised
    only after all the routes are in place. *)
Theorem configuration_order (w : World) (st : State) :
  let t := trace (run w (setup w) st) in
  precedes (eq (Settled MailerInit None)) (eq (Performed MimeDefine)) t
  /\ precedes (eq (Performed (ServerSet "view engine" (JString "hbs"))))
       (fun e => exists secret, e = Performed (Middleware secret)) t
  /\ precedes (eq (Performed (ServerSet "admin view engine" JObject)))
       (fun e => exists secret, e = Performed (Middleware secret)) t
  /\ precedes (fun e => exists secret, e = Performed (Middleware secret))
       (eq (Performed RoutesApi)) t
  /\ precedes (eq (Performed RoutesApi)) (eq (Performed RoutesAdmin)) t
  /\ precedes (eq (Performed RoutesAdmin)) (eq (Performed RoutesFrontend)) t
  /\ precedes (eq (Performed RoutesFrontend)) (eq (Called PluginsInit)) t.
Proof.
  cbv zeta. split.
  { apply mail_before_start. intros e <-. reflexivity. }
  repeat match goal with |- _ /\ _ => split end.
  all: apply precedes_start;
    [ intros e He; first [ subst e | destruct He as [? ->] ]; reflexivity
    | intros st'; on_run; earlier ].
Qed.

(** X2. The server is asked to listen only when everything before has
    succeeded: a call of [server.listen] comes after the mail set-up has
    completed, after the routes are in place and after the plugins have
    been initialised. *)
Theorem listen_needs_whole_chain (w : World) (st : State) :
  let t := trace (run w (setup w) st) in
  precedes (eq (Settled MailerInit None)) isListenCall t
  /\ precedes (eq (Performed RoutesFrontend)) isListenCall t
  /\ precedes (eq (Settled PluginsInit None)) isListenCall t.
Proof.
  cbv zeta. split.
  { apply mail_before_start. intros e [args ->]. reflexivity. }
  split.
  all: apply precedes_start;
    [ intros e [args ->]; reflexivity
    | intros st'; on_run; unfold isListenCall; earlier ].
Qed.

(** ** How a start-up can end *)

Lemma count_initialisation (P : event -> bool) (w : World) (st : State) :
  (forall e, isInitEvent e = true -> P e = false) ->
  count P (trace (run w (initialisation w) st)) = 0.
Proof.
  intros HP. apply count_none.
  eapply List.Forall_impl; [|apply initialisation_events].
  exact HP.
Qed.

Lemma registered_initialisation (w : World) (st : State) :
  registered (trace (run w (initialisation w) st)) = [].
Proof.
  apply registered_none. intros sig h Hin.
  pose proof (initialisation_events w st) as Hev.
  rewrite List.Forall_forall in Hev. specialize (Hev _ Hin). discriminate.
Qed.

Lemma configureAndStart_plugin_rejection
    (w : World) (st : State) (e : Error) :
  In (Settled PluginsInit (Some e)) (trace (run w (configureAndStart w) st)) ->
  settledAs (run w (configureAndStart w) st) = Some (Fulfilled tt)
  /\ count isServerListen (trace (run w (configureAndStart w) st)) = 0
  /\ count isFileSystem (trace (run w (configureAndStart w) st)) = 0
  /\ count isLogErrorAndExit (trace (run w (configureAndStart w) st)) = 0
  /\ count isConsoleLog (trace (run w (configureAndStart w) st)) = 0
  /\ registered (trace (run w (configureAndStart w) st)) = [].
Proof.
  on_run. all: intros Hin; whichEvent Hin.
  repeat split.
Qed.

(** X18. A rejection of [plugins.init()] leaves the server unstarted and
    goes unreported by the module: the terminal handler is not called, the
    module calls neither [fs.unlink], [fs.chmod], [server.listen] nor
    [console.log], it registers no signal listener, and [setup] does not end
    the process.  (What the promise monitor that is loaded in development
    prints about the rejection is not a call of this module.) *)
Theorem plugin_rejection_starts_no_server
    (w : World) (st : State) (e : Error) :
  In (Settled PluginsInit (Some e)) (trace (run w (setup w) st)) ->
  let r := run w (setup w) st in
  settledAs r = Some (Fulfilled tt)
  /\ count isServerListen (trace r) = 0
  /\ count isFileSystem (trace r) = 0
  /\ count isLogErrorAndExit (trace r) = 0
  /\ count isConsoleLog (trace r) = 0
  /\ listeners (final r) = listeners st.
Proof.
  intros Hin. cbv zeta.
  destruct (start_event_state w st (Settled PluginsInit (Some e))
              eq_refl Hin) as (_ & Hrun & Hin').
  destruct (configureAndStart_plugin_rejection w _ e Hin')
    as (Halive & Hlisten & Hfs & Hlog & Hconsole & Hreg).
  rewrite run_listeners. rewrite Hrun. cbn [after trace settledAs].
  change (Performed PolyglotInstance :: trace (run w (initialisation w) st))
    with ([Performed PolyglotInstance]
          ++ trace (run w (initialisation w) st)).
  rewrite !count_app, !registered_app, registered_initialisation.
  rewrite Hlisten, Hfs, Hlog, Hconsole, Hreg.
  rewrite !count_initialisation;
    try (intros [c|c o|[]]; cbn; try congruence; destruct c; cbn; congruence).
  repeat split; try reflexivity.
  - exact Halive.
  - cbn. now rewrite app_nil_r.
Qed.

Lemma plugin_rejection_starts_no_server_witness :
  let w := inProduction brokenPlugins in
  settledAs (run w (setup w) (boot ∅)) = Some (Fulfilled tt)
  /\ count isServerListen (trace (run w (setup w) (boot ∅))) = 0
  /\ count isConsoleLog (trace (run w (setup w) (boot ∅))) = 0.
Proof.
  cbv zeta.
  destruct (plugin_rejection_starts_no_server (inProduction brokenPlugins)
              (boot ∅) (Failure "plugin"))
    as (Halive & Hlisten & _ & _ & Hconsole & _).
  - vm_compute. member.
  - split; [exact Halive | split; [exact Hlisten | exact Hconsole]].
Defined.

Lemma initialisation_rejected_by_stage
    (w : World) (st : State) (e : Error) :
  settledAs (run w (initialisation w) st) = Some (Rejected e) ->
  exists c, rejectsStage c = true
            /\ In (Settled c (Some e)) (trace (run w (initialisation w) st)).
Proof.
  on_run; intros Hv; try discriminate Hv; injection Hv as <-.
  all: eexists; (split; [|member]); reflexivity.
Qed.

Lemma configureAndStart_ends (w : World) (st : State) :
  (forall e, settledAs (run w (configureAndStart w) st) <> Some (Rejected e))
  /\ (settledAs (run w (configureAndStart w) st) = None <->
      (satisfies w (nodeVersion w) (enginesNode w) = false
       /\ exists args, In (Settled (ServerListen args) None)
                         (trace (run w (configureAndStart w) st)))
      \/ (exists args e, In (Settled (ServerListen args) (Some e))
                           (trace (run w (configureAndStart w) st)))).
Proof.
  on_run.
  all: split; [intros ?; discriminate|].
  all: split;
    [ intros Hnone; try discriminate Hnone;
      first [ left; split; [reflexivity | eexists; solve [member]]
            | right; do 2 eexists; solve [member] ]
    | ].
  all: intros [[Hold [args Hin]]|(args & err & Hin)];
    try discriminate Hold; try reflexivity.
  all: whichEvent Hin.
Qed.

(** X10. [setup] never hands a rejection to its caller, and its run ends
    the process in three cases only: a stage of the initialisation chain
    was rejected (the terminal handler), the server started listening on a
    version of Node that is not supported (the version guard), or the
    server failed to listen (its 'error' event has no listener). *)
Theorem setup_ends_process (w : World) (st : State) :
  let r := run w (setup w) st in
  (forall e, settledAs r <> Some (Rejected e))
  /\ (settledAs r = None <->
      (exists c e, rejectsStage c = true /\ In (Settled c (Some e)) (trace r))
      \/ (satisfies w (nodeVersion w) (enginesNode w) = false
          /\ exists args, In (Settled (ServerListen args) None) (trace r))
      \/ (exists args e, In (Settled (ServerListen args) (Some e)) (trace r))).
Proof.
  cbv zeta.
  destruct (settledAs (run w (initialisation w) st)) as [[[]|e0]|] eqn:Hi.
  - (* the chain is fulfilled: the last handler decides *)
    assert (Hrun : run w (setup w) st
                   = after (Performed PolyglotInstance
                            :: trace (run w (initialisation w) st))
                       (run w (configureAndStart w)
                          (final (run w (initialisation w) st)))).
    { rewrite setup_run. unfold conclusion. now rewrite Hi. }
    destruct (configureAndStart_ends w (final (run w (initialisation w) st)))
      as [Hnever Hends].
    split.
    + intros e. rewrite Hrun. apply Hnever.
    + split.
      * intros Hnone. right. rewrite Hrun in Hnone |- *.
        cbn [after settledAs trace] in Hnone |- *.
        destruct (proj1 Hends Hnone)
          as [[Hold [args Hin]]|(args & err & Hin)].
        -- left. split; [exact Hold|]. exists args.
           apply in_or_app. now right.
        -- right. exists args, err. apply in_or_app. now right.
      * intros [(c & e & Hc & Hin)|[[Hold [args Hin]]|(args & err & Hin)]].
        -- exfalso.
           rewrite setup_trace in Hin.
           destruct Hin as [Hin|Hin]; [discriminate Hin|].
           apply in_app_or in Hin. destruct Hin as [Hin|Hin].
           ++ destruct (initialisation_rejection w st c e Hc Hin) as [_ Hrej].
              congruence.
           ++ pose proof (conclusion_events w (run w (initialisation w) st))
                as Hlate.
              rewrite List.Forall_forall in Hlate. specialize (Hlate _ Hin).
              cbn in Hlate. rewrite (rejectsStage_init c Hc) in Hlate.
              discriminate.
        -- destruct (start_event_state w st (Settled (ServerListen args) None)
                       eq_refl Hin) as (_ & _ & Hin').
           rewrite Hrun. cbn [after settledAs].
           apply (proj2 Hends). left. split; [exact Hold | now exists args].
        -- destruct (start_event_state w st
                       (Settled (ServerListen args) (Some err))
                       eq_refl Hin) as (_ & _ & Hin').
           rewrite Hrun. cbn [after settledAs].
           apply (proj2 Hends). right. now exists args, err.
  - (* the chain is rejected: the terminal handler ends the process *)
    assert (Hrun : settledAs (run w (setup w) st) = None).
    { rewrite setup_run. unfold conclusion. now rewrite Hi. }
    split; [intros e; congruence|].
    split; [|intros _; exact Hrun].
    intros _. left.
    destruct (initialisation_rejected_by_stage w st e0 Hi) as (c & Hc & Hin).
    exists c, e0. split; [exact Hc|].
    rewrite setup_trace. right. apply in_or_app. now left.
  - exfalso. now apply (initialisation_settles w st).
Qed.

Lemma setup_ends_process_witness :
  settledAs (run brokenMail (setup brokenMail) (boot ∅)) = None.
Proof.
  apply (proj2 (setup_ends_process brokenMail (boot ∅))).
  left. exists MailerInit, (Failure "mail").
  split; [reflexivity | vm_compute; member].
Defined.

(** ** Exit codes and signals *)

Lemma configureAndStart_exit_code (w : World) (st : State) (code : Z) :
  In (Performed (ProcessExit code)) (trace (run w (configureAndStart w) st)) ->
  code = 0%Z.
Proof. on_run. all: intros Hin; whichEvent Hin; reflexivity. Qed.

Lemma emit_exit_code (w : World) (sig : string) (code : Z) :
  forall (hs : list (string * Listener)) (st : State),
    In (Performed (ProcessExit code)) (trace (run w (emit sig hs) st)) ->
    code = 0%Z.
Proof.
  induction hs as [|[s h] hs IH]; intros st; cbn [emit].
  - intros [].
  - destruct (String.eqb s sig); [|apply IH].
    destruct h; cbn; intros Hin; whichEvent Hin; reflexivity.
Qed.

(** X9. The only exit code this module passes to [process.exit] is 0:
    during start-up, and in the signal listeners, whatever signal is
    delivered and whatever listeners are registered. *)
Theorem exit_code_is_zero
    (w : World) (st s : State) (sig : string) (code : Z) :
  In (Performed (ProcessExit code)) (trace (run w (setup w) st))
  \/ In (Performed (ProcessExit code)) (trace (deliver w sig s)) ->
  code = 0%Z.
Proof.
  intros [Hin|Hin].
  - destruct (start_event w st (Performed (ProcessExit code)) eq_refl Hin)
      as (st' & _ & _ & Hin').
    exact (configureAndStart_exit_code w st' code Hin').
  - exact (emit_exit_code w sig code (listeners s) s Hin).
Qed.

Lemma exit_code_is_zero_witness :
  In (Performed (ProcessExit 0))
    (trace (run onOldNode (setup onOldNode) (boot ∅)))
  /\ 0%Z = 0%Z.
Proof.
  assert (Hin : In (Performed (ProcessExit 0))
                  (trace (run onOldNode (setup onOldNode) (boot ∅)))).
  { vm_compute. member. }
  split; [exact Hin|].
  apply (exit_code_is_zero onOldNode (boot ∅) (boot ∅) "SIGINT" 0).
  left. exact Hin.
Defined.

Lemma configureAndStart_registered (w : World) (st : State) :
  registered (trace (run w (configureAndStart w) st)) = []
  \/ exists h, registered (trace (run w (configureAndStart w) st))
               = [("SIGINT", h)].
Proof. on_run; first [now left | right; eexists; reflexivity]. Qed.

Lemma setup_registered (w : World) (st : State) :
  registered (trace (run w (setup w) st)) = []
  \/ exists h, registered (trace (run w (setup w) st)) = [("SIGINT", h)].
Proof.
  rewrite setup_trace.
  change (Performed PolyglotInstance
          :: trace (run w (initialisation w) st)
             ++ trace (conclusion w (run w (initialisation w) st)))
    with ([Performed PolyglotInstance]
          ++ trace (run w (initialisation w) st)
             ++ trace (conclusion w (run w (initialisation w) st))).
  rewrite !registered_app, registered_initialisation. cbn [registered app].
  unfold conclusion.
  destruct (settledAs (run w (initialisation w) st)) as [[[]|e0]|].
  - apply configureAndStart_registered.
  - now left.
  - now left.
Qed.

(** X11. The module listens for the interrupt signal only, and at most
    once: after any run of [setup] in a process without listeners there is
    one listener at most, and the delivery of any other signal runs no code
    of the module. *)
Theorem only_sigint_is_handled (w : World) (st : State) (sig : string) :
  listeners st = [] ->
  sig <> "SIGINT" ->
  length (listeners (final (run w (setup w) st))) <= 1
  /\ trace (deliver w sig (final (run w (setup w) st))) = [].
Proof.
  intros Hnone Hsig. unfold deliver.
  rewrite run_listeners, Hnone. cbn [app].
  generalize (final (run w (setup w) st)). intros s.
  destruct (setup_registered w st) as [->|[h ->]].
  - split; [cbn; lia | reflexivity].
  - split; [cbn; lia|]. cbn [emit].
    destruct (String.eqb_spec "SIGINT" sig) as [Heq|_]; [congruence|].
    reflexivity.
Qed.

Lemma only_sigint_is_handled_witness :
  trace (deliver development "SIGTERM"
           (final (run development (setup development) (boot ∅)))) = [].
Proof.
  apply (only_sigint_is_handled development (boot ∅) "SIGTERM").
  - reflexivity.
  - discriminate.
Defined.

(** ** The listening target, continued *)


(** ** A start-up without failures *)

Lemma init_run (w : World) (st : State) (app : bool) :
  run w (init w app) st
  = after (if app then [] else [Performed Express]) (run w (setup w) st).
Proof.
  unfold init, then_, perform, resolve.
  destruct app; cbn [negb settled run act].
  - unfold after. cbn [app]. now destruct (run w (setup w) st).
  - reflexivity.
Qed.

(** A run in a world where every request is fulfilled. *)
Ltac exploreOk Hok :=
  unfold_module;
  repeat (cbn; try unfold settle; first [rewrite Hok | ask]);
  cbn.

Lemma initialisation_succeeds (w : World) (st : State) :
  noFaults w ->
  settledAs (run w (initialisation w) st) = Some (Fulfilled tt).
Proof. intros Hok. unfold noFaults in Hok. exploreOk Hok; reflexivity. Qed.

Lemma configureAndStart_succeeds (w : World) (st : State) :
  noFaults w ->
  let r := run w (configureAndStart w) st in
  count isServerListen (trace r) = 1
  /\ In (Called (ServerListen (listenArgs w))) (trace r)
  /\ In (Settled (ServerListen (listenArgs w)) None) (trace r)
  /\ count isExpress (trace r) = 0
  /\ (satisfies w (nodeVersion w) (enginesNode w) = true ->
      settledAs r = Some (Fulfilled tt)).
Proof.
  intros Hok. unfold noFaults in Hok. cbv zeta. unfold listenArgs.
  exploreOk Hok.
  all: repeat split; try reflexivity; try discriminate; member.
Qed.

(** X1. When every stage succeeds, [init] asks the server to listen
    exactly once, on the socket if [getSocket()] is truthy and on the
    configured port and host otherwise, and the server comes up there; an
    application is created with [express()] only if the caller passed none;
    on a supported version of Node the start-up has then succeeded. *)
Theorem successful_init_listens_once
    (w : World) (st : State) (app : bool) :
  noFaults w ->
  let r := run w (init w app) st in
  count isServerListen (trace r) = 1
  /\ In (Called (ServerListen (listenArgs w))) (trace r)
  /\ In (Settled (ServerListen (listenArgs w)) None) (trace r)
  /\ count isExpress (trace r) = (if app then 0 else 1)
  /\ (satisfies w (nodeVersion w) (enginesNode w) = true -> startedUp r).
Proof.
  intros Hok. cbv zeta. rewrite init_run, setup_run.
  unfold conclusion. rewrite (initialisation_succeeds w st Hok).
  destruct (configureAndStart_succeeds w
              (final (run w (initialisation w) st)) Hok)
    as (Hone & Hcall & Hback & Hexpress & Halive).
  set (rc := run w (configureAndStart w)
               (final (run w (initialisation w) st))) in *.
  clearbody rc.
  unfold startedUp. cbn [after trace settledAs].
  change (Performed PolyglotInstance :: trace (run w (initialisation w) st))
    with ([Performed PolyglotInstance]
          ++ trace (run w (initialisation w) st)).
  rewrite !count_app, Hone, Hexpress, !count_initialisation.
  - split; [destruct app; reflexivity|].
    split; [repeat (apply in_or_app; right); exact Hcall|].
    split; [repeat (apply in_or_app; right); exact Hback|].
    split; [destruct app; reflexivity|].
    intros Hnode. split; [|exact (Halive Hnode)].
    exists (listenArgs w). repeat (apply in_or_app; right). exact Hback.
  - intros [c|c o|[]]; cbn; congruence.
  - intros [c|c o|[]]; cbn; try congruence. destruct c; cbn; congruence.
Qed.

Lemma successful_init_listens_once_witness :
  count isServerListen (trace (run onSocket (init onSocket false) (boot ∅)))
  = 1
  /\ In (Called (ServerListen [JString "/tmp/ghost.sock"]))
       (trace (run onSocket (init onSocket false) (boot ∅)))
  /\ startedUp (run onSocket (init onSocket false) (boot ∅)).
Proof.
  destruct (successful_init_listens_once onSocket (boot ∅) false)
    as (Hone & Hcall & _ & _ & Hup).
  - intros c. reflexivity.
  - split; [exact Hone|]. split; [exact Hcall|]. apply Hup. reflexivity.
Defined.

Lemma configureAndStart_target
    (w : World) (st : State) (args : list JsValue) :
  In (Called (ServerListen args)) (trace (run w (configureAndStart w) st)) ->
  args = listenArgs w.
Proof.
  unfold listenArgs. on_run.
  all: intros Hin; whichEvent Hin; reflexivity.
Qed.

(** C5 does not hold for the empty string: [getSocket] returns it as it
    is, but it is falsy, so the server is put on its port and host and
    never on that string. *)
Lemma empty_socket_is_not_the_target :
  let w := emptySocket in
  socket (server (config w)) = Some (JString "")
  /\ getSocket w = JString ""
  /\ List.filter isServerListen (trace (run w (startApp w) (boot ∅)))
     = [Called (ServerListen [JString "2368"; JString "127.0.0.1"])]
  /\ In (Called (ServerListen [JString "2368"; JString "127.0.0.1"]))
       (trace (run w (setup w) (boot ∅)))
  /\ ~ In (Called (ServerListen [JString ""]))
         (trace (run w (setup w) (boot ∅))).
Proof.
  cbv zeta. repeat split; try reflexivity.
  - vm_compute. member.
  - vm_compute. intros Hin. whichEvent Hin.
Qed.

(** C5, as the code has it.  The target the server is asked to listen on,
    once and only once in a run of the handler that starts it: with a
    [server.socket] that is a string, [getSocket] returns that string and,
    unless it is empty, the server listens on exactly it; with a [socket]
    that is not a string, [getSocket] returns the default path made from
    the environment name and, unless that path is empty, the server listens
    on it; without a [socket] key [getSocket] returns [false]; in that
    case, and in the two cases of an empty text, the server listens on the
    configured port and host.  In a run of [setup] the server is never
    asked to listen on anything else. *)
Theorem listening_target (w : World) (st : State) :
  let default := pathJoin w [dirname w; "../content/";
                             plusString (NODE_ENV w) +:+ ".socket"] in
  let onPortAndHost :=
    [Called (ServerListen [JString (port (server (config w)));
                           JString (host (server (config w)))])] in
  let onPath p :=
    if String.eqb p "" then onPortAndHost
    else [Called (ServerListen [JString p])] in
  let calls := List.filter isServerListen (trace (run w (startApp w) st)) in
  match socket (server (config w)) with
  | Some (JString s) => getSocket w = JString s /\ calls = onPath s
  | Some _ => getSocket w = JString default /\ calls = onPath default
  | None => getSocket w = JBool false /\ calls = onPortAndHost
  end
  /\ forall st' args,
       In (Called (ServerListen args)) (trace (run w (setup w) st')) ->
       In (Called (ServerListen args)) calls.
Proof.
  cbv zeta.
  assert (Hcalls :
    List.filter isServerListen (trace (run w (startApp w) st))
    = [Called (ServerListen (listenArgs w))]).
  { unfold listenArgs. on_run; reflexivity. }
  split.
  - rewrite Hcalls. unfold listenArgs, getSocket.
    destruct (socket (server (config w))) as [[| |b|n|s|]|];
      cbn [isString truthy];
      repeat match goal with
             | |- context [String.eqb ?p ""] => destruct (String.eqb p "")
             end;
      split; reflexivity.
  - intros st' args Hin.
    destruct (start_event w st' (Called (ServerListen args)) eq_refl Hin)
      as (st'' & _ & _ & Hin').
    rewrite Hcalls, (configureAndStart_target w st'' args Hin').
    now left.
Qed.

Lemma listening_target_witness :
  List.filter isServerListen (trace (run onSocket (startApp onSocket) (boot ∅)))
  = [Called (ServerListen [JString "/tmp/ghost.sock"])]
  /\ List.filter isServerListen
       (trace (run development (startApp development) (boot ∅)))
     = [Called (ServerListen [JString "2368"; JString "127.0.0.1"])].
Proof.
  split.
  - exact (proj2 (proj1 (listening_target onSocket (boot ∅)))).
  - exact (proj2 (proj1 (listening_target development (boot ∅)))).
Defined.

Lemma configureAndStart_banner
    (w : World) (st : State) (message : list LogArg) :
  isProduction w = false ->
  satisfies w (nodeVersion w) (enginesNode w) = true ->
  In (Performed (ConsoleLog message))
    (trace (run w (configureAndStart w) st)) ->
  In (Value (loggedAddress w)) message.
Proof.
  intros Hdev Hnode. on_run; try congruence.
  all: intros Hin; whichEvent Hin; unfold loggedAddress; member.
Qed.

(** X12. Outside production, on a supported version of Node, the address
    in the start-up message is the one the server was asked to listen on:
    the socket path when [getSocket()] is truthy, and otherwise the text
    host:port for a server that listens on that port and host. *)
Theorem logged_address_is_listen_target
    (w : World) (st : State) (args : list JsValue) (message : list LogArg) :
  isProduction w = false ->
  satisfies w (nodeVersion w) (enginesNode w) = true ->
  In (Called (ServerListen args)) (trace (run w (setup w) st)) ->
  In (Performed (ConsoleLog message)) (trace (run w (setup w) st)) ->
  In (Value (loggedAddress w)) message
  /\ if truthy (getSocket w)
     then args = [loggedAddress w]
     else args = [JString (port (server (config w)));
                  JString (host (server (config w)))]
          /\ loggedAddress w
             = JString (host (server (config w)) +:+ ":"
                        +:+ port (server (config w))).
Proof.
  intros Hdev Hnode Hcall Hlog.
  destruct (start_event w st (Called (ServerListen args)) eq_refl Hcall)
    as (st1 & _ & _ & Hcall').
  destruct (start_event w st (Performed (ConsoleLog message)) eq_refl Hlog)
    as (st2 & _ & _ & Hlog').
  split; [exact (configureAndStart_banner w st2 message Hdev Hnode Hlog')|].
  rewrite (configureAndStart_target w st1 args Hcall').
  unfold listenArgs, loggedAddress, jsOr.
  destruct (truthy (getSocket w)); [reflexivity | now split].
Qed.

Lemma logged_address_is_listen_target_witness :
  In (Value (JString "/tmp/ghost.sock"))
    [Coloured green "Ghost is running in development...";
     Plain (nl +:+ "Listening on");
     Value (JString "/tmp/ghost.sock");
     Plain (nl +:+ "Url configured as:");
     Plain "http://my-ghost-blog.com";
     Coloured grey (nl +:+ "Ctrl+C to shut down")].
Proof.
  apply (logged_address_is_listen_target onSocket (boot ∅)
           [JString "/tmp/ghost.sock"]).
  - reflexivity.
  - reflexivity.
  - vm_compute. member.
  - vm_compute. member.
Defined.

(** ** The socket, continued *)

Lemma configureAndStart_unlink (w : World) (st : State) :
  nextIs (fun e => exists err, e = Settled (FsUnlink (getSocket w)) err)
    (eq (Called (ServerListen [getSocket w])))
    (trace (run w (configureAndStart w) st))
  /\ nextIs (eq (Called (FsUnlink (getSocket w))))
       (fun e => exists err, e = Settled (FsUnlink (getSocket w)) err)
       (trace (run w (configureAndStart w) st))
  /\ (forall p, In (Called (FsUnlink p))
                  (trace (run w (configureAndStart w) st)) ->
      p = getSocket w /\ truthy p = true).
Proof.
  on_run.
  all: split; [atOnce | split; [atOnce|]].
  all: intros p Hin; whichEvent Hin; now split.
Qed.

(** X17. [fs.unlink] is only ever called on the truthy result of
    [getSocket()], and its outcome does not matter: whether it reports an
    error (there is no stale socket, say) or not, its callback is the next
    event and [server.listen] on that path follows at once. *)
Theorem unlink_error_is_ignored (w : World) (st : State) :
  let t := trace (run w (setup w) st) in
  (forall p, In (Called (FsUnlink p)) t ->
     p = getSocket w /\ truthy p = true)
  /\ nextIs (eq (Called (FsUnlink (getSocket w))))
       (fun e => exists err, e = Settled (FsUnlink (getSocket w)) err) t
  /\ nextIs (fun e => exists err, e = Settled (FsUnlink (getSocket w)) err)
       (eq (Called (ServerListen [getSocket w]))) t.
Proof.
  cbv zeta. split; [|split].
  - intros p Hin.
    destruct (start_event w st (Called (FsUnlink p)) eq_refl Hin)
      as (st' & _ & _ & Hin').
    exact (proj2 (proj2 (configureAndStart_unlink w st')) p Hin').
  - apply nextIs_start; [intros e <-; reflexivity|].
    intros st'. apply configureAndStart_unlink.
  - apply nextIs_start; [intros e [err ->]; reflexivity|].
    intros st'. apply configureAndStart_unlink.
Qed.

(** A socket path without a stale socket: [fs.unlink] fails, the server
    starts all the same. *)
Example no_stale_socket :
  let w := withFault (fun c => match c with
                               | FsUnlink _ => Some (Failure "ENOENT")
                               | _ => None
                               end) onSocket in
  startedUp (run w (setup w) (boot ∅))
  /\ In (Settled (FsUnlink (JString "/tmp/ghost.sock"))
           (Some (Failure "ENOENT")))
       (trace (run w (setup w) (boot ∅))).
Proof.
  cbv zeta. split; [split|].
  - exists [JString "/tmp/ghost.sock"]. vm_compute. member.
  - reflexivity.
  - vm_compute. member.
Qed.

(** ** Console output *)

Lemma configureAndStart_console (w : World) (st : State) :
  count isConsoleLog (trace (run w (configureAndStart w) st)) <= 1
  /\ nextIs (fun e => exists args, e = Settled (ServerListen args) None)
       (fun e => exists message, e = Performed (ConsoleLog message))
       (trace (run w (configureAndStart w) st))
  /\ precedes (fun e => exists args, e = Settled (ServerListen args) None)
       (fun e => exists message, e = Performed (ConsoleLog message))
       (trace (run w (configureAndStart w) st)).
Proof.
  on_run.
  all: split; [cbn; lia | split; [atOnce | earlier]].
Qed.

(** X15. The module itself calls [console.log] once at most in a
    start-up, and only in the callback of [server.listen]: once the server
    is listening the next thing the module does is that call, for the
    diagnostic of the version guard or for the start-up message, and it
    makes no such call at any other moment.  (What collaborators print,
    [errors.logErrorAndExit] or the promise monitor, is not a call of this
    module.) *)
Theorem one_message_per_start (w : World) (st : State) :
  let t := trace (run w (setup w) st) in
  count isConsoleLog t <= 1
  /\ nextIs (fun e => exists args, e = Settled (ServerListen args) None)
       (fun e => exists message, e = Performed (ConsoleLog message)) t
  /\ precedes (fun e => exists args, e = Settled (ServerListen args) None)
       (fun e => exists message, e = Performed (ConsoleLog message)) t.
Proof.
  cbv zeta. split; [|split].
  - rewrite setup_trace.
    change (Performed PolyglotInstance
            :: trace (run w (initialisation w) st)
               ++ trace (conclusion w (run w (initialisation w) st)))
      with ([Performed PolyglotInstance]
            ++ trace (run w (initialisation w) st)
               ++ trace (conclusion w (run w (initialisation w) st))).
    rewrite !count_app, count_initialisation.
    + change (count isConsoleLog [Performed PolyglotInstance]) with 0.
      unfold conclusion.
      generalize (final (run w (initialisation w) st)). intros st'.
      destruct (settledAs (run w (initialisation w) st)) as [[[]|e0]|];
        [|cbn; lia|cbn; lia].
      pose proof (proj1 (configureAndStart_console w st')). lia.
    + intros [c|c o|[]]; cbn; congruence.
  - apply nextIs_start; [intros e [args ->]; reflexivity|].
    intros st'. apply configureAndStart_console.
  - apply precedes_start; [intros e [message ->]; reflexivity|].
    intros st'. apply configureAndStart_console.
Qed.

(** ** Concurrency *)





(** ** The socket and the file system *)

Lemma falsy_string (s : string) : truthy (JString s) = false <-> s = "".
Proof.
  cbn. destruct (String.eqb_spec s "") as [->|Hne]; cbn.
  - now split.
  - split; [discriminate | contradiction].
Qed.

Lemma falsy_socket_iff (w : World) :
  truthy (getSocket w) = false
  <-> socket (server (config w)) = None
      \/ socket (server (config w)) = Some (JString "")
      \/ (exists v, socket (server (config w)) = Some v
                    /\ isString v = false
                    /\ pathJoin w [dirname w; "../content/";
                                   plusString (NODE_ENV w) +:+ ".socket"]
                       = "").
Proof.
  unfold getSocket.
  destruct (socket (server (config w))) as [v|].
  - split.
    + intros Hfalsy. right.
      destruct (isString v) eqn:Hv.
      * left. destruct v; try discriminate Hv.
        apply falsy_string in Hfalsy. now subst.
      * right. exists v. split; [reflexivity|]. split; [exact Hv|].
        now apply falsy_string.
    + intros [H|[H|(v' & H & Hv & Hd)]]; try discriminate H.
      * injection H as ->. reflexivity.
      * injection H as <-. rewrite Hv. rewrite Hd. reflexivity.
  - split; [now left | reflexivity].
Qed.

Lemma configureAndStart_file_system (w : World) (st : State) :
  noFaults w ->
  let t := trace (run w (configureAndStart w) st) in
  if truthy (getSocket w)
  then count isFileSystem t = 3
       /\ In (Called (FsUnlink (getSocket w))) t
       /\ In (Performed (FsChmod (getSocket w) "0744")) t
       /\ In (Called (ServerListen [getSocket w])) t
  else count isFileSystem t = 0
       /\ In (Called (ServerListen [JString (port (server (config w)));
                                    JString (host (server (config w)))])) t.
Proof.
  intros Hok. unfold noFaults in Hok. cbv zeta.
  exploreOk Hok.
  all: repeat split; try reflexivity; member.
Qed.

(** X13. In a start-up where every request is fulfilled, the module calls
    [fs] exactly when [getSocket()] is truthy: then it unlinks that path,
    listens on it and sets its mode; when [getSocket()] is falsy (no
    [socket] key, an empty [socket] string or an empty default path, and in
    no other case) it listens on the configured port and host and makes no
    call of [fs] at all. *)
Theorem file_system_only_in_socket_mode (w : World) (st : State) :
  noFaults w ->
  let t := trace (run w (setup w) st) in
  let tcp :=
    socket (server (config w)) = None
    \/ socket (server (config w)) = Some (JString "")
    \/ (exists v, socket (server (config w)) = Some v
                  /\ isString v = false
                  /\ pathJoin w [dirname w; "../content/";
                                 plusString (NODE_ENV w) +:+ ".socket"]
                     = "") in
  (tcp ->
   count isFileSystem t = 0
   /\ In (Called (ServerListen [JString (port (server (config w)));
                                JString (host (server (config w)))])) t)
  /\ (~ tcp ->
      count isFileSystem t = 3
      /\ In (Called (FsUnlink (getSocket w))) t
      /\ In (Called (ServerListen [getSocket w])) t
      /\ In (Performed (FsChmod (getSocket w) "0744")) t).
Proof.
  intros Hok. cbv zeta.
  assert (Hcount : forall rc : Run unit,
            count isFileSystem
              (Performed PolyglotInstance
               :: trace (run w (initialisation w) st) ++ trace rc)
            = count isFileSystem (trace rc)).
  { intros rc.
    change (Performed PolyglotInstance
            :: trace (run w (initialisation w) st) ++ trace rc)
      with ([Performed PolyglotInstance]
            ++ trace (run w (initialisation w) st) ++ trace rc).
    rewrite !count_app, count_initialisation; [reflexivity|].
    intros [c|c o|[]]; cbn; try congruence; destruct c; cbn; congruence. }
  assert (Hin : forall (rc : Run unit) e,
            In e (trace rc) ->
            In e (Performed PolyglotInstance
                  :: trace (run w (initialisation w) st) ++ trace rc)).
  { intros rc e He. right. apply in_or_app. now right. }
  rewrite setup_trace. unfold conclusion.
  rewrite (initialisation_succeeds w st Hok).
  pose proof (configureAndStart_file_system w
                (final (run w (initialisation w) st)) Hok) as Hfs.
  cbv zeta in Hfs.
  set (rc := run w (configureAndStart w)
               (final (run w (initialisation w) st))) in *.
  clearbody rc. rewrite Hcount.
  pose proof (falsy_socket_iff w) as Hfalsy.
  destruct (truthy (getSocket w)).
  - split.
    + intros Htcp. apply (proj2 Hfalsy) in Htcp. discriminate Htcp.
    + intros _. destruct Hfs as (H3 & Hunlink & Hchmod & Hlisten).
      repeat split; auto.
  - split.
    + intros _. destruct Hfs as (H0 & Hlisten). split; auto.
    + intros Hnot. exfalso. apply Hnot. now apply (proj1 Hfalsy).
Qed.

Lemma file_system_only_in_socket_mode_witness :
  count isFileSystem (trace (run development (setup development) (boot ∅)))
  = 0
  /\ count isFileSystem (trace (run onSocket (setup onSocket) (boot ∅))) = 3.
Proof.
  split.
  - apply (file_system_only_in_socket_mode development (boot ∅)).
    + intros c. reflexivity.
    + now left.
  - apply (file_system_only_in_socket_mode onSocket (boot ∅)).
    + intros c. reflexivity.
    + intros [H|[H|(v & H & Hv & _)]]; try discriminate H.
      injection H as <-. discriminate Hv.
Defined.
